(** * Media extraction from Parsoid HTML: a shallow embedding of lib/media.js

    The development models the DOM tree handed to [getMediaItemInfoFromPage]
    (after [domino.createDocument]), the handful of ECMAScript built-ins the
    module relies on (string slicing and splitting, [ToNumber], [parseInt],
    [decodeURIComponent], [JSON.parse], property maps), and then the functions
    of lib/media.js themselves, in the order of the source file.

    Strings are byte strings ([String.string]); a JavaScript string is read as
    its UTF-8 encoding.  Exceptions are values of the [Res] type.

    The value-level helpers of lib/mwapi.js follow in the module [Mwapi]. *)

From Stdlib Require Import ZArith Ascii String DecimalString DecimalN.
From stdpp Require Import gmap strings list fin_maps sorting.

Set Warnings "-register-all".
Open Scope string_scope.
Open Scope list_scope.

(** ** Exceptions *)

Inductive Error := TypeError | SyntaxError | URIError.

Inductive Res (A : Type) : Type :=
| Ok (a : A)
| Throw (e : Error).
Arguments Ok {A} a.
Arguments Throw {A} e.

Definition bindRes {A B} (c : Res A) (k : A -> Res B) : Res B :=
  match c with
  | Ok a => k a
  | Throw e => Throw e
  end.

Declare Scope res_scope.
Delimit Scope res_scope with res.
Notation "'let*' x ':=' c 'in' k" := (bindRes c (fun x => k))
  (at level 10, x name, c at level 100, k at level 200) : res_scope.
Open Scope res_scope.

Global Instance Error_eq_dec : EqDecision Error.
Proof. solve_decision. Defined.

Global Instance Res_eq_dec {A} `{EqDecision A} : EqDecision (Res A).
Proof. solve_decision. Defined.

Definition returns {A} (c : Res A) : bool :=
  match c with Ok _ => true | Throw _ => false end.

(** The callback returned [true]. *)
Definition yes (c : Res bool) : bool :=
  match c with Ok true => true | _ => false end.

(** [Array.prototype.map] with a callback that may throw: elements are
    visited left to right and the first exception aborts the loop. *)
Fixpoint mapRes {A B} (f : A -> Res B) (l : list A) : Res (list B) :=
  match l with
  | [] => Ok []
  | x :: l' =>
      let* y := f x in
      let* ys := mapRes f l' in
      Ok (y :: ys)
  end.

(** [Array.prototype.filter] with a callback that may throw. *)
Fixpoint filterRes {A} (f : A -> Res bool) (l : list A) : Res (list A) :=
  match l with
  | [] => Ok []
  | x :: l' =>
      let* b := f x in
      let* xs := filterRes f l' in
      Ok (if b then x :: xs else xs)
  end.

(** ** Strings *)

Module Str.

Definition eqb (a b : string) : bool := bool_decide (a = b).

Fixpoint startsWith (p s : string) : bool :=
  match p, s with
  | EmptyString, _ => true
  | String a p', String b s' => bool_decide (a = b) && startsWith p' s'
  | String _ _, EmptyString => false
  end.

(** [s.includes(p)] *)
Fixpoint includes (p s : string) : bool :=
  startsWith p s ||
  match s with
  | EmptyString => false
  | String _ s' => includes p s'
  end.

(** [s.slice(0, n)] for a non-negative [n] *)
Definition slice0 (n : nat) (s : string) : string := String.substring 0 n s.

Fixpoint rev_onto (acc s : string) : string :=
  match s with
  | EmptyString => acc
  | String c s' => rev_onto (String c acc) s'
  end.
Definition rev (s : string) : string := rev_onto EmptyString s.

(** [s.split(sep)] for a non-empty separator.  [skip] counts the
    characters of a separator occurrence still to be passed over, [acc]
    holds the current piece, reversed. *)
Fixpoint split_go (sep : string) (skip : nat) (acc s : string) : list string :=
  match s with
  | EmptyString => [rev acc]
  | String c s' =>
      match skip with
      | S k => split_go sep k acc s'
      | O =>
          if startsWith sep s
          then rev acc :: split_go sep (String.length sep - 1) EmptyString s'
          else split_go sep 0 (String c acc) s'
      end
  end.

Fixpoint allChars (P : ascii -> bool) (s : string) : bool :=
  match s with
  | EmptyString => true
  | String c s' => P c && allChars P s'
  end.

Fixpoint chars (s : string) : list string :=
  match s with
  | EmptyString => []
  | String c s' => String c EmptyString :: chars s'
  end.

Definition split (sep s : string) : list string :=
  match sep with
  | EmptyString => chars s
  | _ => split_go sep 0 EmptyString s
  end.

Definition isAsciiSpace (c : ascii) : bool :=
  let n := nat_of_ascii c in
  ((n =? 32) || (n =? 9) || (n =? 10) || (n =? 12) || (n =? 13))%nat.

(** Split on runs of ASCII whitespace, dropping empty pieces (the token
    list of a [class] attribute). *)
Fixpoint tokens_go (acc s : string) : list string :=
  match s with
  | EmptyString => match acc with EmptyString => [] | _ => [rev acc] end
  | String c s' =>
      if isAsciiSpace c
      then match acc with
           | EmptyString => tokens_go EmptyString s'
           | _ => rev acc :: tokens_go EmptyString s'
           end
      else tokens_go (String c acc) s'
  end.
Definition tokens (s : string) : list string := tokens_go EmptyString s.

End Str.

(** ** The DOM tree *)

Record Tag := mkTag {
  tagName : string;                       (* lower-case local name *)
  attributes : list (string * string)     (* in source order *)
}.

Inductive Node :=
| NElem (t : Tag) (children : list Node)
| NText (data : string).

(** An element together with the chain of its ancestors, nearest first. *)
Record Element := mkElement {
  ancestors : list Tag;
  tag : Tag;
  childNodes : list Node
}.

Definition Document := list Node.

Fixpoint assoc {A} (k : string) (l : list (string * A)) : option A :=
  match l with
  | [] => None
  | (k', v) :: l' => if Str.eqb k k' then Some v else assoc k l'
  end.

Definition tagAttribute (name : string) (t : Tag) : option string :=
  assoc name (attributes t).

(** [elem.getAttribute(name)]: [None] stands for [null]. *)
Definition getAttribute (name : string) (e : Element) : option string :=
  tagAttribute name (tag e).

(** [elem.className] *)
Definition className (e : Element) : string :=
  default EmptyString (getAttribute "class" e).

(** Elements of a subtree in document order (pre-order), the root included. *)
Fixpoint elementsOf (anc : list Tag) (n : Node) : list Element :=
  match n with
  | NText _ => []
  | NElem t cs =>
      mkElement anc t cs ::
      (fix go (l : list Node) : list Element :=
         match l with
         | [] => []
         | c :: l' => elementsOf (t :: anc) c ++ go l'
         end) cs
  end.

Definition elementsOfList (anc : list Tag) (l : list Node) : list Element :=
  flat_map (elementsOf anc) l.

(** Proper descendants of an element, in document order. *)
Definition descendants (e : Element) : list Element :=
  elementsOfList (tag e :: ancestors e) (childNodes e).

Definition documentElements (d : Document) : list Element :=
  elementsOfList [] d.

(** [node.textContent] *)
Fixpoint textOf (n : Node) : string :=
  match n with
  | NText s => s
  | NElem _ cs =>
      (fix go (l : list Node) : string :=
         match l with
         | [] => EmptyString
         | c :: l' => textOf c +:+ go l'
         end) cs
  end.

Definition textContent (e : Element) : string :=
  fold_right (fun c acc => textOf c +:+ acc) EmptyString (childNodes e).

(** ** Selectors

    The selector strings of the source are kept in parsed form: a group is
    the comma-separated list, a compound the conjunction of simple
    selectors.  No combinators occur in lib/media.js. *)

Inductive Simple :=
| STag (name : string)            (* img *)
| SClass (c : string)             (* .gallery *)
| SId (i : string)                (* #id *)
| SAttrPrefix (a v : string)      (* [a^=v] *)
| SAttrEq (a v : string)          (* [a=v] *)
| SAny.                           (* * *)

Definition Compound := list Simple.
Definition SelectorGroup := list Compound.

Definition matchesSimple (s : Simple) (t : Tag) : bool :=
  match s with
  | STag n => Str.eqb n (tagName t)
  | SClass c =>
      bool_decide (c ∈ Str.tokens (default EmptyString (tagAttribute "class" t)))
  | SId i =>
      match tagAttribute "id" t with
      | Some v => Str.eqb i v
      | None => false
      end
  | SAttrPrefix a v =>
      match tagAttribute a t, v with
      | _, EmptyString => false
      | Some x, _ => Str.startsWith v x
      | None, _ => false
      end
  | SAttrEq a v =>
      match tagAttribute a t with
      | Some x => Str.eqb v x
      | None => false
      end
  | SAny => true
  end.

Definition matchesCompound (c : Compound) (t : Tag) : bool :=
  forallb (fun s => matchesSimple s t) c.

Definition matchesGroup (g : SelectorGroup) (t : Tag) : bool :=
  existsb (fun c => matchesCompound c t) g.

(** An empty selector string is a [SyntaxError] in every DOM query. *)
Definition checkSelector (g : SelectorGroup) : Res unit :=
  match g with
  | [] => Throw SyntaxError
  | _ => Ok tt
  end.

(** [root.querySelectorAll(g)] on a document *)
Definition querySelectorAll (g : SelectorGroup) (d : Document) : Res (list Element) :=
  let* _ := checkSelector g in
  Ok (filter (fun e => matchesGroup g (tag e) = true) (documentElements d)).

(** [elem.querySelector(g)]: the first proper descendant that matches. *)
Definition querySelector (g : SelectorGroup) (e : Element) : Res (option Element) :=
  let* _ := checkSelector g in
  Ok (head (filter (fun x => matchesGroup g (tag x) = true) (descendants e))).

(** [elem.closest(g)]: the element itself or its nearest matching ancestor;
    only the tag of the match is needed by the callers. *)
Definition closest (g : SelectorGroup) (e : Element) : Res (option Tag) :=
  let* _ := checkSelector g in
  Ok (head (filter (fun t => matchesGroup g t = true) (tag e :: ancestors e))).

(** [elem.getElementsByTagName(name)] *)
Definition getElementsByTagName (name : string) (e : Element) : list Element :=
  filter (fun x => tagName (tag x) = name) (descendants e).

(** ** UTF-8 *)

Module Utf8.

Definition byte (n : N) : ascii := ascii_of_N n.

(** Encoding of a code point (surrogates are encoded like any other
    three-byte value). *)
Definition encode (cp : N) : string :=
  (if cp <? 128 then String (byte cp) EmptyString
   else if cp <? 2048 then
     String (byte (192 + cp / 64)) (String (byte (128 + cp mod 64)) EmptyString)
   else if cp <? 65536 then
     String (byte (224 + cp / 4096))
       (String (byte (128 + (cp / 64) mod 64))
          (String (byte (128 + cp mod 64)) EmptyString))
   else
     String (byte (240 + cp / 262144))
       (String (byte (128 + (cp / 4096) mod 64))
          (String (byte (128 + (cp / 64) mod 64))
             (String (byte (128 + cp mod 64)) EmptyString))))%N.

Definition isCont (b : N) : bool := ((128 <=? b) && (b <=? 191))%N.

(** Is the octet sequence the UTF-8 encoding of one Unicode scalar value
    (shortest form, no surrogate, at most U+10FFFF)? *)
Definition valid (octets : list N) : bool :=
  match octets with
  | [b0] => (b0 <? 128)%N
  | [b0; b1] => ((194 <=? b0) && (b0 <=? 223))%N && isCont b1
  | [b0; b1; b2] =>
      ((224 <=? b0) && (b0 <=? 239))%N && isCont b1 && isCont b2 &&
      (if (b0 =? 224)%N then (160 <=? b1)%N
       else if (b0 =? 237)%N then (b1 <=? 159)%N else true)
  | [b0; b1; b2; b3] =>
      ((240 <=? b0) && (b0 <=? 244))%N && isCont b1 && isCont b2 && isCont b3 &&
      (if (b0 =? 240)%N then (144 <=? b1)%N
       else if (b0 =? 244)%N then (b1 <=? 143)%N else true)
  | _ => false
  end.

(** Number of leading one bits of an octet. *)
Definition leadingOnes (b : N) : nat :=
  if (b <? 128)%N then 0%nat
  else if (b <? 192)%N then 1%nat
  else if (b <? 224)%N then 2%nat
  else if (b <? 240)%N then 3%nat
  else if (b <? 248)%N then 4%nat
  else 5%nat.

End Utf8.

(** ** Numbers

    A Number is kept as the exact decimal value the program text or input
    string denotes; the rounding to IEEE-754 binary64 (nearest, ties to even)
    is accounted for in each operation that observes the value. *)

Definition MIN_IMAGE_SIZE : Z := 48.

Inductive Number :=
| NaN
| Infinity (neg : bool)
| Dec (neg : bool) (m : N) (e : Z).     (* (-1)^neg * m * 10^e *)

Module Num.

(** Does the value round to +0 or -0?  The smallest positive double is
    2^-1074, so exactly the magnitudes up to 2^-1075 round to zero. *)
Definition isZero (n : Number) : bool :=
  match n with
  | Dec _ m e =>
      if (0 <=? e)%Z then (m =? 0)%N
      else (Z.of_N m * 2 ^ 1075 <=? 10 ^ (- e))%Z
  | _ => false
  end.

(** [n < MIN_IMAGE_SIZE].  48 is a double with an even significand and
    its predecessor is 48 - 2^-47, so a positive value rounds below 48
    exactly when it is below 48 - 2^-48. *)
Definition lt48 (n : Number) : bool :=
  match n with
  | NaN => false
  | Infinity neg => neg
  | Dec true _ _ => true
  | Dec false m e =>
      if (0 <=? e)%Z then (Z.of_N m * 10 ^ e <? MIN_IMAGE_SIZE)%Z
      else (Z.of_N m * 2 ^ 48 <? (MIN_IMAGE_SIZE * 2 ^ 48 - 1) * 10 ^ (- e))%Z
  end.

Definition isNaN (n : Number) : bool :=
  match n with NaN => true | _ => false end.

(** StrWhiteSpaceChar: TAB, LF, VT, FF, CR, SP, and outside ASCII the
    code points U+00A0, U+1680, U+2000 to U+200A, U+2028, U+2029, U+202F,
    U+205F, U+3000 and U+FEFF, here in their UTF-8 encoding. *)
Definition isWhite (c : ascii) : bool :=
  let n := nat_of_ascii c in
  ((n =? 32) || ((9 <=? n) && (n <=? 13)))%nat.

Definition whiteSeqs : list string :=
  map Utf8.encode
    [160; 5760; 8192; 8193; 8194; 8195; 8196; 8197; 8198; 8199; 8200; 8201;
     8202; 8232; 8233; 8239; 8287; 12288; 65279]%N.

(** Drop leading white space; [skip] counts the bytes of a multi-byte
    white space character still to be passed over. *)
Fixpoint dropWhite (seqs : list string) (skip : nat) (s : string) : string :=
  match s with
  | EmptyString => s
  | String c s' =>
      match skip with
      | S k => dropWhite seqs k s'
      | O =>
          if isWhite c then dropWhite seqs 0 s'
          else
            match List.find (fun w => Str.startsWith w s) seqs with
            | Some w => dropWhite seqs (String.length w - 1) s'
            | None => s
            end
      end
  end.

Definition trimLeft (s : string) : string := dropWhite whiteSeqs 0 s.

Definition trim (s : string) : string :=
  Str.rev (dropWhite (map Str.rev whiteSeqs) 0 (Str.rev (trimLeft s))).

(** Value of a digit character in the given base, if it is one. *)
Definition digit (base : N) (c : ascii) : option N :=
  let n := N_of_ascii c in
  let v := (if (48 <=? n) && (n <=? 57) then Some (n - 48)
            else if (97 <=? n) && (n <=? 102) then Some (n - 87)
            else if (65 <=? n) && (n <=? 70) then Some (n - 55)
            else None)%N in
  match v with
  | Some d => if (d <? base)%N then Some d else None
  | None => None
  end.

(** Longest prefix of digits: accumulated value, digit count, rest. *)
Fixpoint readDigits (base acc : N) (cnt : nat) (s : string) : N * nat * string :=
  match s with
  | String c s' =>
      match digit base c with
      | Some d => readDigits base (acc * base + d)%N (S cnt) s'
      | None => (acc, cnt, s)
      end
  | EmptyString => (acc, cnt, s)
  end.

Definition readSign (s : string) : bool * string :=
  match s with
  | String "-" s' => (true, s')
  | String "+" s' => (false, s')
  | _ => (false, s)
  end.

(** NonDecimalIntegerLiteral body: digits only, at least one. *)
Definition allDigits (base : N) (s : string) : Number :=
  match readDigits base 0 0 s with
  | (v, S _, EmptyString) => Dec false v 0
  | _ => NaN
  end.

Definition isE (c : ascii) : bool :=
  bool_decide (c = "e"%char) || bool_decide (c = "E"%char).

(** ExponentPart_opt followed by the end of the string. *)
Definition readExponent (s : string) : option Z :=
  match s with
  | EmptyString => Some 0%Z
  | String c s' =>
      if isE c then
        let '(neg, s'') := readSign s' in
        match readDigits 10 0 0 s'' with
        | (v, S _, EmptyString) =>
            Some (if neg then (- Z.of_N v)%Z else Z.of_N v)
        | _ => None
        end
      else None
  end.

(** StrUnsignedDecimalLiteral *)
Definition unsignedDecimal (neg : bool) (s : string) : Number :=
  if Str.eqb s "Infinity" then Infinity neg else
  let '(i, ni, r1) := readDigits 10 0 0 s in
  let '(m, nf, r2) :=
    match r1 with
    | String "." r => readDigits 10 i 0 r
    | _ => (i, 0, r1)
    end in
  match (ni + nf)%nat, readExponent r2 with
  | S _, Some x => Dec neg m (x - Z.of_nat nf)
  | _, _ => NaN
  end.

(** StringToNumber *)
Definition ofString (s : string) : Number :=
  match trim s with
  | EmptyString => Dec false 0 0
  | String "0" (String "x" r) | String "0" (String "X" r) => allDigits 16 r
  | String "0" (String "o" r) | String "0" (String "O" r) => allDigits 8 r
  | String "0" (String "b" r) | String "0" (String "B" r) => allDigits 2 r
  | t => let '(neg, r) := readSign t in unsignedDecimal neg r
  end.

Definition isDecimalDigit (c : ascii) : bool :=
  match digit 10 c with Some _ => true | None => false end.

(** The value of a string that consists of decimal digits only, at
    least one: the form of a [width] or [height] attribute that holds a
    pixel count. *)
Definition digitsValue (s : string) : option N :=
  match readDigits 10 0 0 s with
  | (v, S _, EmptyString) => Some v
  | _ => None
  end.

(** [ToNumber] of a value that is a string or [null]. *)
Definition ofAttribute (a : option string) : Number :=
  match a with
  | None => Dec false 0 0
  | Some s => ofString s
  end.

(** [parseInt(a, 10)] of a value that is a string or [null]. *)
Definition parseInt10 (a : option string) : Number :=
  let s := default "null" a in
  let '(neg, r) := readSign (trimLeft s) in
  match readDigits 10 0 0 r with
  | (v, S _, _) => Dec neg v 0
  | _ => NaN
  end.

End Num.

(** ** Values *)

Inductive JSValue :=
| VUndefined
| VNull
| VBool (b : bool)
| VNum (n : Number)
| VStr (s : string)
| VArr (items : list JSValue)
| VObj (props : list (string * JSValue)).

(** [ToBoolean] *)
Definition truthy (v : JSValue) : bool :=
  match v with
  | VUndefined | VNull => false
  | VBool b => b
  | VNum n => negb (Num.isNaN n || Num.isZero n)
  | VStr s => negb (Str.eqb s EmptyString)
  | VArr _ | VObj _ => true
  end.

(** A string-or-null result of [getAttribute] as a value. *)
Definition ofAttr (a : option string) : JSValue :=
  match a with
  | Some s => VStr s
  | None => VNull
  end.

(** [v.key] for a value that is neither [undefined] nor [null] and a key
    that no prototype defines. *)
Definition getProp (key : string) (v : JSValue) : JSValue :=
  match v with
  | VObj props => default VUndefined (assoc key props)
  | _ => VUndefined
  end.

(** Define or overwrite a property, keeping the position of an existing one. *)
Fixpoint setProp (k : string) (v : JSValue) (props : list (string * JSValue))
  : list (string * JSValue) :=
  match props with
  | [] => [(k, v)]
  | (k', v') :: ps =>
      if Str.eqb k k' then (k', v) :: ps else (k', v') :: setProp k v ps
  end.

(** ** decodeURIComponent *)

Module URI.

(** A [%XX] escape at the head of the string. *)
Definition readEscape (s : string) : option (N * string) :=
  match s with
  | String "%" (String h (String l r)) =>
      match Num.digit 16 h, Num.digit 16 l with
      | Some a, Some b => Some (a * 16 + b, r)%N
      | _, _ => None
      end
  | _ => None
  end.

(** [n] further escapes, in order. *)
Fixpoint readEscapes (n : nat) (s : string) : option (list N * string) :=
  match n with
  | O => Some ([], s)
  | S n' =>
      match readEscape s with
      | Some (b, r) =>
          match readEscapes n' r with
          | Some (bs, r') => Some (b :: bs, r')
          | None => None
          end
      | None => None
      end
  end.

Definition bytes (l : list N) : string :=
  fold_right (fun b acc => String (Utf8.byte b) acc) EmptyString l.

(** The Decode operation with an empty reserved set.  [skip] counts the
    characters of the current escape sequence still to be passed over. *)
Fixpoint decode_go (skip : nat) (s : string) : Res string :=
  match s with
  | EmptyString => Ok EmptyString
  | String c s' =>
      match skip with
      | S k => decode_go k s'
      | O =>
          if bool_decide (c = "%"%char) then
            match readEscape s with
            | None => Throw URIError
            | Some (b, r) =>
                match Utf8.leadingOnes b with
                | O =>
                    let* t := decode_go 2 s' in
                    Ok (String (Utf8.byte b) t)
                | S O => Throw URIError
                | S n =>
                    if (4 <? S n)%nat then Throw URIError else
                    match readEscapes n r with
                    | None => Throw URIError
                    | Some (bs, _) =>
                        if Utf8.valid (b :: bs) then
                          let* t := decode_go (3 * S n - 1) s' in
                          Ok (bytes (b :: bs) +:+ t)
                        else Throw URIError
                    end
                end
            end
          else
            let* t := decode_go 0 s' in
            Ok (String c t)
      end
  end.

Definition decodeURIComponent (s : string) : Res string := decode_go 0 s.

End URI.

(** ** JSON.parse *)

Module JSON.

Inductive Token :=
| TLBrace | TRBrace | TLBrack | TRBrack | TColon | TComma
| TString (s : string)
| TNumber (n : Number)
| TTrue | TFalse | TNull.

Definition isWhite (c : ascii) : bool :=
  let n := nat_of_ascii c in
  ((n =? 32) || (n =? 9) || (n =? 10) || (n =? 13))%nat.

(** The double quote character. *)
Definition dquote : ascii := ascii_of_nat 34.

(** Four hexadecimal digits. *)
Definition readHex4 (s : string) : option (N * string) :=
  match s with
  | String a (String b (String c (String d r))) =>
      match Num.digit 16 a, Num.digit 16 b, Num.digit 16 c, Num.digit 16 d with
      | Some x, Some y, Some z, Some w =>
          Some (((x * 16 + y) * 16 + z) * 16 + w, r)%N
      | _, _, _, _ => None
      end
  | _ => None
  end.

Definition isHigh (u : N) : bool := ((55296 <=? u) && (u <=? 56319))%N.
Definition isLow (u : N) : bool := ((56320 <=? u) && (u <=? 57343))%N.

(** The body of a string literal after the opening quote: the decoded
    string and the text after the closing quote. *)
Fixpoint lexString (fuel : nat) (acc s : string) : option (string * string) :=
  match fuel with
  | O => None
  | S f =>
      match s with
      | EmptyString => None
      | String "\" (String "u" r) =>
          match readHex4 r with
          | None => None
          | Some (u, r') =>
              let paired :=
                if isHigh u then
                  match r' with
                  | String "\" (String "u" r'') =>
                      match readHex4 r'' with
                      | Some (l, r3) =>
                          if isLow l
                          then Some ((65536 + (u - 55296) * 1024 + (l - 56320))%N, r3)
                          else None
                      | None => None
                      end
                  | _ => None
                  end
                else None in
              let '(cp, rest) := default (u, r') paired in
              lexString f (Str.rev (Utf8.encode cp) +:+ acc) rest
          end
      | String "\" (String e r) =>
          let put (n : N) := lexString f (String (Utf8.byte n) acc) r in
          if bool_decide (e = dquote) then put 34%N
          else if bool_decide (e = "\"%char) then put 92%N
          else if bool_decide (e = "/"%char) then put 47%N
          else if bool_decide (e = "b"%char) then put 8%N
          else if bool_decide (e = "f"%char) then put 12%N
          else if bool_decide (e = "n"%char) then put 10%N
          else if bool_decide (e = "r"%char) then put 13%N
          else if bool_decide (e = "t"%char) then put 9%N
          else None
      | String c r =>
          if bool_decide (c = dquote) then Some (Str.rev acc, r)
          else if (N_of_ascii c <? 32)%N then None
          else lexString f (String c acc) r
      end
  end.

(** A number literal: an optional minus sign, an integer part without
    superfluous leading zero, an optional fraction with at least one
    digit, an optional exponent with at least one digit. *)
Definition lexNumber (s : string) : option (Number * string) :=
  let '(neg, s1) :=
    match s with
    | String "-" r => (true, r)
    | _ => (false, s)
    end in
  let '(i, ni, r1) := Num.readDigits 10 0 0 s1 in
  let leadingZero :=
    match s1 with
    | String "0" _ => (1 <? ni)%nat
    | _ => false
    end in
  if (ni =? 0)%nat || leadingZero then None else
  let frac :=
    match r1 with
    | String "." r =>
        match Num.readDigits 10 i 0 r with
        | (m, S nf, r2) => Some (m, S nf, r2)
        | _ => None
        end
    | _ => Some (i, 0%nat, r1)
    end in
  match frac with
  | None => None
  | Some (m, nf, r2) =>
      match r2 with
      | String c r3 =>
          if Num.isE c then
            let '(eneg, r4) := Num.readSign r3 in
            match Num.readDigits 10 0 0 r4 with
            | (x, S _, r5) =>
                let ex := if eneg then (- Z.of_N x)%Z else Z.of_N x in
                Some (Dec neg m (ex - Z.of_nat nf), r5)
            | _ => None
            end
          else Some (Dec neg m (- Z.of_nat nf), r2)
      | EmptyString => Some (Dec neg m (- Z.of_nat nf), r2)
      end
  end.

Fixpoint lex (fuel : nat) (s : string) : option (list Token) :=
  match fuel with
  | O => None
  | S f =>
      match s with
      | EmptyString => Some []
      | String c r =>
          let one (t : Token) := option_map (cons t) (lex f r) in
          if isWhite c then lex f r
          else if bool_decide (c = "{"%char) then one TLBrace
          else if bool_decide (c = "}"%char) then one TRBrace
          else if bool_decide (c = "["%char) then one TLBrack
          else if bool_decide (c = "]"%char) then one TRBrack
          else if bool_decide (c = ":"%char) then one TColon
          else if bool_decide (c = ","%char) then one TComma
          else if bool_decide (c = dquote) then
            match lexString (String.length r + 1) EmptyString r with
            | Some (str, r') => option_map (cons (TString str)) (lex f r')
            | None => None
            end
          else if Str.startsWith "true" s then
            option_map (cons TTrue) (lex f (String.substring 4 (String.length s) s))
          else if Str.startsWith "false" s then
            option_map (cons TFalse) (lex f (String.substring 5 (String.length s) s))
          else if Str.startsWith "null" s then
            option_map (cons TNull) (lex f (String.substring 4 (String.length s) s))
          else
            match lexNumber s with
            | Some (n, r') => option_map (cons (TNumber n)) (lex f r')
            | None => None
            end
      end
  end.

Fixpoint parseValue (fuel : nat) (ts : list Token) : option (JSValue * list Token) :=
  match fuel with
  | O => None
  | S f =>
      match ts with
      | TNull :: r => Some (VNull, r)
      | TTrue :: r => Some (VBool true, r)
      | TFalse :: r => Some (VBool false, r)
      | TNumber n :: r => Some (VNum n, r)
      | TString s :: r => Some (VStr s, r)
      | TLBrack :: TRBrack :: r => Some (VArr [], r)
      | TLBrack :: r => parseElements f [] r
      | TLBrace :: TRBrace :: r => Some (VObj [], r)
      | TLBrace :: r => parseMembers f [] r
      | _ => None
      end
  end
with parseElements (fuel : nat) (acc : list JSValue) (ts : list Token)
  : option (JSValue * list Token) :=
  match fuel with
  | O => None
  | S f =>
      match parseValue f ts with
      | Some (v, TComma :: r) => parseElements f (v :: acc) r
      | Some (v, TRBrack :: r) => Some (VArr (List.rev (v :: acc)), r)
      | _ => None
      end
  end
with parseMembers (fuel : nat) (acc : list (string * JSValue)) (ts : list Token)
  : option (JSValue * list Token) :=
  match fuel with
  | O => None
  | S f =>
      match ts with
      | TString k :: TColon :: r =>
          match parseValue f r with
          | Some (v, TComma :: r') => parseMembers f (setProp k v acc) r'
          | Some (v, TRBrace :: r') => Some (VObj (setProp k v acc), r')
          | _ => None
          end
      | _ => None
      end
  end.

(** [JSON.parse(text)] for a text that is a string. *)
Definition parseString (s : string) : Res JSValue :=
  match lex (String.length s + 1) s with
  | Some ts =>
      match parseValue (2 * length ts + 2) ts with
      | Some (v, []) => Ok v
      | _ => Throw SyntaxError
      end
  | None => Throw SyntaxError
  end.

(** [JSON.parse(a)] for a string or [null]; [null] is first converted to
    the string ["null"]. *)
Definition parse (a : option string) : Res JSValue :=
  parseString (default "null" a).

End JSON.

(** ** The wording of the specification, for comparison

    The MIME type as "the part of the type attribute before the first
    semicolon" and the codec list as "the comma-split contents of the quoted
    codecs parameter". *)

Definition specMime (ty : string) : string :=
  default EmptyString (head (Str.split ";" ty)).

Definition specCodecs (quoted : string) : list string :=
  Str.split "," quoted.

(** Deduplication in the wording of the specification: the record at
    position [p] of the document-order list [D] belongs to a candidate that
    passes [P], and no candidate at an earlier position that passes [P] has
    a record with the same key.  [seen] lists keys that are taken
    already. *)
Definition FirstOfKey {A B K : Type} (P : A -> Prop) (item : A -> Res B)
    (key : B -> Res K) (D : list A) (seen : list K) (p : nat) (r : B) : Prop :=
  exists e k,
    D !! p = Some e /\ P e /\ item e = Ok r /\ key r = Ok k /\ (k ∉ seen) /\
    forall q e' r',
      (q < p)%nat -> D !! q = Some e' -> P e' -> item e' = Ok r' -> key r' <> Ok k.

(** ** lib/media.js: media types *)

(** The six [MediaType] instances; the source compares them by identity. *)
Inductive MediaType := Image | Video | Audio | Pronunciation | MathImage | Unknown.

Global Instance MediaType_eq_dec : EqDecision MediaType.
Proof. solve_decision. Defined.

Definition selector (m : MediaType) : option SelectorGroup :=
  match m with
  | Image => Some [[STag "img"]]
  | Video => Some [[STag "video"]]
  | Audio => Some [[STag "audio"]; [STag "video"]]
  | Pronunciation | MathImage | Unknown => None
  end.

Definition name (m : MediaType) : string :=
  match m with
  | Image | MathImage => "image"
  | Video => "video"
  | Audio | Pronunciation => "audio"
  | Unknown => "unknown"
  end.

(** ** lib/media.js: the records built by the extraction *)

Record Source := mkSource {
  url : option string;
  mime : string;
  codecs : list string;
  source_name : option string;          (* name *)
  short_name : option string;
  width : option string;
  height : option string
}.

Record Original := mkOriginal {
  original_source : option string;      (* source *)
  original_mime : string                (* mime *)
}.

Record Caption := mkCaption {
  html : string;
  text : string
}.

(** The object literal [result] of the source.  [option] marks a field that
    can be [undefined]; an inner [option string] is a string or [null]. *)
Record MediaItem := mkMediaItem {
  title : option string;                (* string or null *)
  section_id : option Number;           (* undefined or a Number *)
  type : string;
  caption : option Caption;             (* null or an object *)
  start_time : JSValue;
  end_time : JSValue;
  thumb_time : JSValue;
  audio_type : option string;           (* undefined or a string *)
  gallery_id : option (option string);  (* undefined, or string or null *)
  sources : option (list Source);       (* undefined or an array *)
  showInGallery : bool;
  original : option Original            (* property absent, or an object *)
}.

(** [a || b] on two results of [getAttribute]. *)
Definition orAttr (a b : option string) : option string :=
  if truthy (ofAttr a) then a else b.

(** [arr[i].split(sep)], where indexing past the end gives [undefined] and
    calling a method on [undefined] throws. *)
Definition splitAt (sep : string) (i : nat) (arr : list string) : Res (list string) :=
  match arr !! i with
  | Some s => Ok (Str.split sep s)
  | None => Throw TypeError
  end.

(** [s.replace(/^.\//, '')]: a leading character other than a line
    terminator (LF, CR, U+2028, U+2029), followed by a slash, is removed.
    The dot of the pattern matches one UTF-16 code unit, that is a
    character of at most three bytes here. *)
Definition stripRelative (s : string) : string :=
  match s with
  | String c r =>
      let b := N_of_ascii c in
      match Utf8.leadingOnes b with
      | 0%nat =>
          match r with
          | String "/" r' => if ((b =? 10) || (b =? 13))%N then s else r'
          | _ => s
          end
      | 2%nat =>
          match r with
          | String _ (String "/" r') => r'
          | _ => s
          end
      | 3%nat =>
          match r with
          | String c1 (String c2 (String "/" r')) =>
              if ((b =? 226) && (N_of_ascii c1 =? 128) &&
                  ((N_of_ascii c2 =? 168) || (N_of_ascii c2 =? 169)))%N
              then s else r'
          | _ => s
          end
      | _ => s
      end
  | EmptyString => s
  end.

Section Media.

(** Constants of lib/selectors.js, which is not part of the sources at
    hand, and the HTML serialiser of the DOM library. *)
Variable MATHOID_IMG_CLASS : string.
Variable MediaSelectors : SelectorGroup.
Variable Blacklist : SelectorGroup.
Variable SpokenWikipediaId : SelectorGroup.
Variable innerHTML : Element -> string.

Definition isMathoidImage (elem : Element) : bool :=
  Str.includes MATHOID_IMG_CLASS (className elem).

(** [None] is the [undefined] of a function that falls off its end. *)
Definition getMediaType (elem : Element) : option MediaType :=
  if truthy (ofAttr (getAttribute "typeof" elem)) then
    let t := Str.slice0 8 (default EmptyString (getAttribute "typeof" elem)) in
    if Str.eqb t "mw:Image" then Some Image
    else if Str.eqb t "mw:Video" then Some Video
    else if Str.eqb t "mw:Audio" then Some Audio
    else Some Unknown
  else if bool_decide (getAttribute "rel" elem = Some "mw:MediaLink") then
    Some Pronunciation
  else if isMathoidImage elem then Some MathImage
  else None.

Definition isDisallowed (elem : Element) : Res bool :=
  let* c := closest Blacklist elem in
  Ok (bool_decide (is_Some c)).

Definition isTooSmall (img : Element) : bool :=
  let width := getAttribute "width" img in
  let height := getAttribute "height" img in
  Num.lt48 (Num.ofAttribute width) || Num.lt48 (Num.ofAttribute height).

(** Reading a property of [undefined] or [null] throws. *)
Definition deref {A} (o : option A) : Res A :=
  match o with
  | Some a => Ok a
  | None => Throw TypeError
  end.

(** [mediaType.selector && elem.querySelector(mediaType.selector)] *)
Definition resourceOf (mediaType : MediaType) (elem : Element) : Res (option Element) :=
  match selector mediaType with
  | Some g => querySelector g elem
  | None => Ok None
  end.

(** The callback of the [filter] call. *)
Definition keeps (elem : Element) : Res bool :=
  if isMathoidImage elem then Ok true else
  let* mediaType := deref (getMediaType elem) in
  let* resource := resourceOf mediaType elem in
  let* sizeOk :=
    if bool_decide (mediaType <> Image) then Ok true
    else let* img := deref resource in Ok (negb (isTooSmall img)) in
  if sizeOk then
    let* d := isDisallowed elem in Ok (negb d)
  else Ok false.

(** A surviving candidate: an element that the media selectors match and
    the filter callback keeps. *)
Definition survives (elem : Element) : Prop :=
  matchesGroup MediaSelectors (tag elem) = true /\ keeps elem = Ok true.

Global Instance survives_dec (elem : Element) : Decision (survives elem).
Proof. unfold survives. apply _. Defined.

(** The callback of the inner [map] over the [source] elements. *)
Definition sourceOf (source : Element) : Res Source :=
  let* ty := deref (getAttribute "type" source) in
  let parts := Str.split "; " ty in
  let mime := default EmptyString (parts !! 0%nat) in
  let* quoted := splitAt (String JSON.dquote EmptyString) 1 parts in
  let* codecs := splitAt ", " 1 quoted in
  Ok {| url := getAttribute "src" source;
        mime := mime;
        codecs := codecs;
        source_name := getAttribute "data-title" source;
        short_name := getAttribute "data-shorttitle" source;
        width := orAttr (getAttribute "data-file-width" source)
                        (getAttribute "data-width" source);
        height := orAttr (getAttribute "data-file-height" source)
                         (getAttribute "data-height" source) |}.

(** The callback of the outer [map]. *)
Definition itemOf (elem : Element) : Res MediaItem :=
  let* mediaType := deref (getMediaType elem) in
  let* resource := resourceOf mediaType elem in
  let* figCaption := querySelector [[STag "figcaption"]] elem in
  let caption :=
    option_map (fun f => {| html := innerHTML f; text := textContent f |})
               figCaption in
  let* section := closest [[STag "section"]] elem in
  let sectionId :=
    option_map (fun s => Num.parseInt10 (tagAttribute "data-mw-section-id" s))
               section in
  let* gallery := closest [[SClass "gallery"]] elem in
  let galleryId := option_map (tagAttribute "id") gallery in
  let* title :=
    match resource with
    | None => Ok None
    | Some r =>
        let* a := deref (getAttribute "resource" r) in
        let* t := URI.decodeURIComponent (stripRelative a) in
        Ok (Some t)
    end in
  let result title startTime endTime thumbTime audioType sources original :=
    {| title := title;
       section_id := sectionId;
       type := name mediaType;
       caption := caption;
       start_time := startTime;
       end_time := endTime;
       thumb_time := thumbTime;
       audio_type := audioType;
       gallery_id := galleryId;
       sources := sources;
       showInGallery :=
         bool_decide (mediaType = Image) || bool_decide (mediaType = Video);
       original := original |} in
  match mediaType with
  | Video =>
      let* dataMw := JSON.parse (getAttribute "data-mw" elem) in
      let '(startTime, endTime, thumbTime) :=
        if truthy dataMw
        then (getProp "starttime" dataMw, getProp "endtime" dataMw,
              getProp "thumbtime" dataMw)
        else (VUndefined, VUndefined, VUndefined) in
      let sourceElems := getElementsByTagName "source" elem in
      let* sources := mapRes sourceOf sourceElems in
      Ok (result title startTime endTime thumbTime None (Some sources) None)
  | Pronunciation =>
      let* title :=
        URI.decodeURIComponent
          ("File:" +:+ default "null" (getAttribute "title" elem)) in
      Ok (result (Some title) VUndefined VUndefined VUndefined
                 (Some "pronunciation") None None)
  | Audio =>
      let* spoken := closest SpokenWikipediaId elem in
      let audioType :=
        match spoken with Some _ => "spoken" | None => "generic" end in
      Ok (result title VUndefined VUndefined VUndefined (Some audioType) None None)
  | MathImage =>
      let original :=
        {| original_source := getAttribute "src" elem;
           original_mime := "image/svg" |} in
      Ok (result title VUndefined VUndefined VUndefined None None (Some original))
  | Image | Unknown =>
      Ok (result title VUndefined VUndefined VUndefined None None None)
  end.

(** The deduplication key in the wording of the specification: the title
    when the record has one, else the source of its [original]. *)
Definition dedupKey (r : MediaItem) : option (option string) :=
  match title r with
  | Some t => Some (Some t)
  | None => option_map original_source (original r)
  end.

(** The iteratee of [_.uniq]: [elem.title || elem.original.source].  The
    key is a string or [null]. *)
Definition keyOf (elem : MediaItem) : Res (option string) :=
  if truthy (ofAttr (title elem)) then Ok (title elem)
  else let* o := deref (original elem) in Ok (original_source o).

(** [_.uniq(array, iteratee)] of underscore: the keys seen so far are
    kept in a list, an element is pushed when its key is not among them. *)
Fixpoint uniq_go {A K} `{EqDecision K} (iteratee : A -> Res K)
    (seen : list K) (array : list A) : Res (list A) :=
  match array with
  | [] => Ok []
  | value :: rest =>
      let* computed := iteratee value in
      if bool_decide (computed ∈ seen) then uniq_go iteratee seen rest
      else
        let* r := uniq_go iteratee (seen ++ [computed]) rest in
        Ok (value :: r)
  end.

Definition uniq {A K} `{EqDecision K} (array : list A) (iteratee : A -> Res K)
  : Res (list A) :=
  uniq_go iteratee [] array.

Definition getMediaItemInfoFromPage (doc : Document) : Res (list MediaItem) :=
  let* matched := querySelectorAll MediaSelectors doc in
  let* elems := filterRes keeps matched in
  let* results := mapRes itemOf elems in
  uniq results keyOf.

End Media.

(** ** Objects and the heap

    [combineResponses] updates the records it is given in place, so the
    records live in a heap and a record list is a list of references.  A
    record is a finite map from property names to values. *)

Abbreviation Obj := (gmap string JSValue).
Abbreviation loc := nat (only parsing).
Abbreviation Heap := (gmap nat (gmap string JSValue)).

(** [o.k] on an object without inherited properties of that name. *)
Definition prop (k : string) (o : Obj) : JSValue :=
  default VUndefined (o !! k).

(** [Object.assign(target, source)]: own properties of the source are
    copied, overwriting those of the target. *)
Definition objectAssign (target source : Obj) : Obj := source ∪ target.

Fixpoint joinWith (sep : string) (l : list string) : string :=
  match l with
  | [] => EmptyString
  | [x] => x
  | x :: l' => x +:+ sep +:+ joinWith sep l'
  end.

Section Combine.

(** Number-to-string conversion of the engine, left abstract. *)
Variable NumberToString : Number -> string.

(** [ToString], as used when a value serves as a property name. *)
Fixpoint toString (v : JSValue) : string :=
  match v with
  | VUndefined => "undefined"
  | VNull => "null"
  | VBool true => "true"
  | VBool false => "false"
  | VNum n => NumberToString n
  | VStr s => s
  | VArr items =>
      joinWith ","
        ((fix go (l : list JSValue) : list string :=
            match l with
            | [] => []
            | VUndefined :: l' | VNull :: l' => EmptyString :: go l'
            | x :: l' => toString x :: go l'
            end) items)
  | VObj _ => "[object Object]"
  end.

(** The metadata map: file page title to metadata object.  A name the
    map does not define resolves to nothing that has own properties. *)
Variable apiResponse : gmap string (gmap string JSValue).

(** The record after the optional [Object.assign] alone. *)
Definition merged (o : Obj) : Obj :=
  if truthy (prop "title" o) then
    match apiResponse !! toString (prop "title" o) with
    | Some entry => objectAssign o entry
    | None => o
    end
  else o.

(** The body of the [map] callback of [combineResponses], as a change
    of the record it is applied to. *)
Definition combineItem (mediaItem : Obj) : Obj :=
  let m1 :=
    if truthy (prop "title" mediaItem) then
      match apiResponse !! toString (prop "title" mediaItem) with
      | Some entry => objectAssign mediaItem entry
      | None => mediaItem
      end
    else mediaItem in
  let m2 := delete "title" m1 in
  if truthy (prop "sources" m2) then delete "original" m2 else m2.

(** [pageMediaList.map(...)]: the callback updates the record behind each
    reference and returns the same reference. *)
Fixpoint combine_go (pageMediaList : list loc) (h : Heap) : Res (list loc * Heap) :=
  match pageMediaList with
  | [] => Ok ([], h)
  | mediaItem :: rest =>
      let* o := deref (h !! mediaItem) in
      let* r := combine_go rest (<[mediaItem := combineItem o]> h) in
      Ok (mediaItem :: r.1, r.2)
  end.

Definition combineResponses (pageMediaList : list loc) (h : Heap)
  : Res (list loc * Heap) :=
  combine_go pageMediaList h.

End Combine.

(** The contents of the records behind a list of references. *)
Definition readAll (h : Heap) (l : list loc) : list (option Obj) :=
  map (fun r => h !! r) l.

(** What a caller can observe of a returned record list: the contents of
    the records, in order. *)
Definition contents (c : Res (list loc * Heap)) : Res (list (option Obj)) :=
  match c with
  | Ok r => Ok (readAll r.2 r.1)
  | Throw e => Throw e
  end.

(** *** Records as objects *)

Definition sourceObject (s : Source) : JSValue :=
  VObj [("url", ofAttr (url s));
        ("mime", VStr (mime s));
        ("codecs", VArr (map VStr (codecs s)));
        ("name", ofAttr (source_name s));
        ("short_name", ofAttr (short_name s));
        ("width", ofAttr (width s));
        ("height", ofAttr (height s))].

Definition ofOption {A} (f : A -> JSValue) (o : option A) : JSValue :=
  match o with
  | Some a => f a
  | None => VUndefined
  end.

Definition toObject (r : MediaItem) : Obj :=
  let result : Obj :=
    list_to_map
      [("title", ofAttr (title r));
       ("section_id", ofOption VNum (section_id r));
       ("type", VStr (type r));
       ("caption",
         match caption r with
         | Some c => VObj [("html", VStr (html c)); ("text", VStr (text c))]
         | None => VNull
         end);
       ("start_time", start_time r);
       ("end_time", end_time r);
       ("thumb_time", thumb_time r);
       ("audio_type", ofOption VStr (audio_type r));
       ("gallery_id", ofOption ofAttr (gallery_id r));
       ("sources", ofOption (fun l => VArr (map sourceObject l)) (sources r));
       ("showInGallery", VBool (showInGallery r))] in
  match original r with
  | Some o =>
      <["original" :=
          VObj [("source", ofAttr (original_source o));
                ("mime", VStr (original_mime o))]]> result
  | None => result
  end.

(** [new] for a list of objects: each gets a fresh reference. *)
Fixpoint allocAll (objs : list Obj) (h : Heap) : list loc * Heap :=
  match objs with
  | [] => ([], h)
  | o :: rest =>
      let l := fresh (dom h) in
      let r := allocAll rest (<[l := o]> h) in
      (l :: r.1, r.2)
  end.

(** The extraction followed by the merge of its records; [h] is the heap
    the call starts from. *)
Definition extractAndCombine
    (MATHOID_IMG_CLASS : string)
    (MediaSelectors Blacklist SpokenWikipediaId : SelectorGroup)
    (innerHTML : Element -> string)
    (NumberToString : Number -> string)
    (apiResponse : gmap string (gmap string JSValue))
    (doc : Document) (h : Heap) : Res (list loc * Heap) :=
  let* items :=
    getMediaItemInfoFromPage MATHOID_IMG_CLASS MediaSelectors Blacklist
      SpokenWikipediaId innerHTML doc in
  let a := allocAll (map toObject items) h in
  combineResponses NumberToString apiResponse a.1 a.2.

(** ** A sample instance of the constants of lib/selectors.js

    Used to run the functions on concrete documents. *)

Module Sample.

Definition MATHOID_IMG_CLASS : string := "mwe-math-fallback-image-inline".

Definition MediaSelectors : SelectorGroup :=
  [[SAny; SAttrPrefix "typeof" "mw:Image"];
   [SAny; SAttrPrefix "typeof" "mw:Video"];
   [SAny; SAttrPrefix "typeof" "mw:Audio"];
   [STag "a"; SAttrEq "rel" "mw:MediaLink"];
   [STag "img"; SClass MATHOID_IMG_CLASS]].

Definition Blacklist : SelectorGroup :=
  [[SClass "metadata"]; [SClass "noviewer"]].

Definition SpokenWikipediaId : SelectorGroup :=
  [[SId "section_SpokenWikipedia"]].

(** A stand-in for the serialiser: the text of the element. *)
Definition innerHTML (e : Element) : string := textContent e.

Definition NumberToString (n : Number) : string := "NaN".

Definition keeps := keeps MATHOID_IMG_CLASS Blacklist.
Definition itemOf := itemOf MATHOID_IMG_CLASS SpokenWikipediaId innerHTML.
Definition getMediaType := getMediaType MATHOID_IMG_CLASS.
Definition getMediaItemInfoFromPage :=
  getMediaItemInfoFromPage MATHOID_IMG_CLASS MediaSelectors Blacklist
    SpokenWikipediaId innerHTML.

Definition el (name : string) (attrs : list (string * string))
    (children : list Node) : Node :=
  NElem (mkTag name attrs) children.

(** The root element of a one-element document. *)
Definition root (n : Node) : Element :=
  match n with
  | NElem t cs => mkElement [] t cs
  | NText _ => mkElement [] (mkTag EmptyString []) []
  end.

(** An image wrapper whose [img] declares no dimensions. *)
Definition imgNoSize : Node := el "img" [("resource", "./File:Foo.jpg")] [].
Definition figureNoSize : Node := el "figure" [("typeof", "mw:Image")] [imgNoSize].
Definition imgNoSizeElement : Element :=
  mkElement [mkTag "figure" [("typeof", "mw:Image")]]
            (mkTag "img" [("resource", "./File:Foo.jpg")]) [].

(** The same wrapper with a 100 by 100 [img]. *)
Definition figureSized : Node :=
  el "figure" [("typeof", "mw:Image")]
     [el "img" [("resource", "./File:Foo.jpg"); ("width", "100"); ("height", "100")] []].

(** A video wrapper with two sources; [mw] holds extra attributes of the
    wrapper, [ty1] the [type] attribute of the first source. *)
Definition videoWith (mw : list (string * string)) (ty1 : string) : Node :=
  el "figure" (("typeof", "mw:Video") :: mw)
    [el "video" [("resource", "./File:V.ogv")]
       [el "source" [("src", "u1"); ("type", ty1); ("data-width", "10")] [];
        el "source" [("src", "u2");
                     ("type", "video/webm; codecs=" +:+ String JSON.dquote "vp8"
                              +:+ String JSON.dquote EmptyString);
                     ("data-width", "20"); ("data-file-width", "30")] []]].

Definition oggType : string :=
  "video/ogg; codecs=" +:+ String JSON.dquote "theora, vorbis"
  +:+ String JSON.dquote EmptyString.

(** A [type] attribute with a semicolon inside the MIME part and a codec
    list without spaces. *)
Definition oddType : string :=
  "a;b; codecs=" +:+ String JSON.dquote "x,y" +:+ String JSON.dquote EmptyString.

Definition sourceWith (ty : string) : Element :=
  mkElement [] (mkTag "source" [("src", "u1"); ("type", ty)]) [].

(** An image wrapper inside a section whose id is not a number. *)
Definition figureInBadSection : Element :=
  mkElement [mkTag "section" [("data-mw-section-id", "abc")]]
            (mkTag "figure" [("typeof", "mw:Image")])
            [el "img" [("resource", "./File:Foo.jpg")] []].

(** An image wrapper without an [img], a video wrapper without a [video]. *)
Definition figureNoImg : Node := el "figure" [("typeof", "mw:Image")] [].
Definition figureNoVideo : Node := el "figure" [("typeof", "mw:Video")] [].

(** A heap with one image record, and a metadata map with an entry for
    its title. *)
Definition fooRecord : Obj :=
  list_to_map [("title", VStr "File:Foo.jpg"); ("type", VStr "image");
               ("sources", VUndefined); ("showInGallery", VBool true)].
Definition fooHeap : Heap := {[ 0%nat := fooRecord ]}.
Definition fooMetadata : gmap string (gmap string JSValue) :=
  {[ "File:Foo.jpg" := {[ "description" := VStr "A foo" ]} ]}.

(** An image with a caption, as in the first scenario of the
    specification. *)
Definition figureWithCaption : Node :=
  el "figure" [("typeof", "mw:Image")]
     [el "img" [("resource", "./File:Foo.jpg"); ("width", "100"); ("height", "100")] [];
      el "figcaption" [] [NText "Hi"]].

Definition pronunciationLink : Node :=
  el "a" [("rel", "mw:MediaLink"); ("title", "Example.ogg")] [].

(** A page with a repeated image, a video, a Mathoid image and a
    pronunciation link. *)
Definition pageWithDuplicate : Document :=
  [el "section" [("data-mw-section-id", "1")]
     [figureSized;
      videoWith [] oggType;
      el "p" [] [NText "text"; figureSized];
      el "img" [("class", MATHOID_IMG_CLASS); ("src", "m.svg")] [];
      el "a" [("rel", "mw:MediaLink"); ("title", "Example.ogg")] []]].

(** An image wrapper inside a container with a blacklisted class. *)
Definition metadataBox : Element :=
  root (el "div" [("class", "metadata")] [figureSized]).

(** An image wrapper inside a section whose id has text after the digits. *)
Definition figureInNumberedSection : Element :=
  mkElement [mkTag "section" [("data-mw-section-id", "12abc")]]
            (mkTag "figure" [("typeof", "mw:Image")])
            [el "img" [("resource", "./File:Foo.jpg")] []].

(** An image wrapper that is an item of a gallery. *)
Definition figureInGallery : Element :=
  mkElement [mkTag "ul" [("class", "gallery"); ("id", "g1")]]
            (mkTag "figure" [("typeof", "mw:Image")])
            [el "img" [("resource", "./File:Foo.jpg")] []].

Definition mathImage : Node :=
  el "img" [("class", MATHOID_IMG_CLASS); ("src", "m.svg")] [].

End Sample.

(** * lib/mwapi.js

    The helpers of lib/mwapi.js that compute on values.  API responses are
    [JSValue]s; the requests, the promise plumbing and the title library are
    left out. *)

Module Mwapi.

(** [v.key], which throws when [v] is [undefined] or [null]. *)
Definition get (key : string) (v : JSValue) : Res JSValue :=
  match v with
  | VUndefined | VNull => Throw TypeError
  | _ => Ok (getProp key v)
  end.

(** [v && v.key] *)
Definition andGet (v : JSValue) (key : string) : JSValue :=
  if truthy v then getProp key v else v.

(** ** checkForQueryPagesInResponse, checkForMobileviewInResponse *)

(** What the two checks throw: an exception of the engine or an
    [HTTPError] with its four fields. *)
Inductive Thrown :=
| Native (e : Error)
| HTTPError (status : Z) (type title : string) (detail : JSValue).

Inductive Outcome :=
| Returned
| Threw (e : Thrown).

(** A call of [logger.log(level, message)]. *)
Record LogEntry := mkLog { log_level : string; log_message : string }.

(** The result pairs what was logged with the outcome. *)
Definition checkForQueryPagesInResponse (response : JSValue)
  : list LogEntry * Outcome :=
  if negb (truthy (andGet (andGet (andGet response "body") "query") "pages")) then
    ([mkLog "error/mwapi" "no query.pages in response"],
     match get "body" response with
     | Ok body => Threw (HTTPError 504 "api_error" "no query.pages in response" body)
     | Throw e => Threw (Native e)
     end)
  else ([], Returned).

Section Mobileview.

(** [JSON.stringify(v, null, 2)] inside the template literal. *)
Variable stringify : JSValue -> string.

Definition checkForMobileviewInResponse (response : JSValue)
  : list LogEntry * Outcome :=
  if negb (truthy (andGet (andGet response "body") "mobileview")) then
    match get "body" response with
    | Throw e => ([], Threw (Native e))
    | Ok body =>
        match get "error" body with
        | Throw e => ([], Threw (Native e))
        | Ok error =>
            let missing :=
              truthy (andGet error "code") &&
              match getProp "code" error with
              | VStr code => Str.eqb code "missingtitle"
              | _ => false
              end in
            if missing then
              ([], Threw (HTTPError 404 "missingtitle"
                            "The page you requested doesn't exist" body))
            else
              ([mkLog "warn/mwapi" ("no mobileview in response: " +:+ stringify body)],
               Threw (HTTPError 504 "api_error" "no mobileview in response" body))
        end
    end
  else ([], Returned).

End Mobileview.

(** ** findSharedRepoDomain *)

(** [Array.prototype.find] with a callback that may throw: the search
    stops at the first element the callback accepts. *)
Fixpoint findRes {A} (f : A -> Res bool) (l : list A) : Res (option A) :=
  match l with
  | [] => Ok None
  | x :: l' =>
      let* b := f x in
      if b then Ok (Some x) else findRes f l'
  end.

Fixpoint takeNoSlash (s : string) : string :=
  match s with
  | String c s' => if bool_decide (c = "/"%char) then EmptyString
                   else String c (takeNoSlash s')
  | EmptyString => EmptyString
  end.

(** The rest of the string after a prefix, if the string starts with it. *)
Fixpoint stripPrefix (p s : string) : option string :=
  match p, s with
  | EmptyString, _ => Some s
  | String a p', String b s' =>
      if bool_decide (a = b) then stripPrefix p' s' else None
  | String _ _, EmptyString => None
  end.

(** The optional group [(:?https?:)?] at the start of the string: the text
    it matches, if it matches. *)
Definition schemePart (s : string) : option string :=
  let afterColon := default s (stripPrefix ":" s) in
  let colon := match stripPrefix ":" s with Some _ => ":" | None => EmptyString end in
  match stripPrefix "http" afterColon with
  | None => None
  | Some r =>
      match stripPrefix "s:" r, stripPrefix ":" r with
      | Some _, _ => Some (colon +:+ "https:")
      | None, Some _ => Some (colon +:+ "http:")
      | None, None => None
      end
  end.

(** [/^((:?https?:)?\/\/[^/]+)/.exec(s)]: the matched text.  When the
    group matches and no [//] follows it, the match without the group fails
    as well, since the string then starts with a colon or with [h]. *)
Definition domainMatch (s : string) : option string :=
  let scheme := default EmptyString (schemePart s) in
  match stripPrefix (scheme +:+ "//") s with
  | Some r =>
      match takeNoSlash r with
      | EmptyString => None
      | host => Some (scheme +:+ "//" +:+ host)
      end
  | None => None
  end.

Section SharedRepo.

Variable NumberToString : Number -> string.

(** The callback [repo => repo.name === 'shared']. *)
Definition isShared (repo : JSValue) : Res bool :=
  let* name := get "name" repo in
  Ok (match name with VStr n => Str.eqb n "shared" | _ => false end).

(** [None] is the [undefined] of a function that falls off its end.  A
    truthy [repos] that is not an array has no [find] method. *)
Definition findSharedRepoDomain (siteInfoRes : JSValue) : Res (option string) :=
  let* body := get "body" siteInfoRes in
  let* query := get "query" body in
  let* repos := get "repos" query in
  let* sharedRepo :=
    match (if truthy repos then repos else VArr []) with
    | VArr items => findRes isShared items
    | _ => Throw TypeError
    end in
  match sharedRepo with
  | Some repo =>
      if truthy repo
      then Ok (domainMatch (toString NumberToString (getProp "descBaseUrl" repo)))
      else Ok None
  | None => Ok None
  end.

End SharedRepo.

(** ** simplifyProtectionObject *)

(** The property names that the empty object literal inherits from
    [Object.prototype]. *)
Definition inheritedNames : list string :=
  ["constructor"; "__defineGetter__"; "__defineSetter__"; "hasOwnProperty";
   "__lookupGetter__"; "__lookupSetter__"; "isPrototypeOf";
   "propertyIsEnumerable"; "toString"; "valueOf"; "__proto__"; "toLocaleString"].

(** An entry of the protection array of the MediaWiki API; both fields are
    strings. *)
Record ProtectionEntry := mkProtection {
  protection_type : string;
  protection_level : string
}.

(** The body of the [forEach] callback.  When [type] names an inherited
    property, [protection[type]] is that property, which is truthy and has
    no [indexOf]. *)
Definition addProtection (protection : gmap string (list string))
    (entry : ProtectionEntry) : Res (gmap string (list string)) :=
  let type := protection_type entry in
  let level := protection_level entry in
  if bool_decide (type ∈ inheritedNames) then Throw TypeError else
  let protection1 :=
    match protection !! type with
    | None => <[type := []]> protection
    | Some _ => protection
    end in
  let levels := default [] (protection1 !! type) in
  if bool_decide (level ∈ levels) then Ok protection1
  else Ok (<[type := levels ++ [level]]> protection1).

(** [Array.prototype.forEach] with a callback that updates a state and
    may throw. *)
Fixpoint forEachRes {A S} (f : S -> A -> Res S) (l : list A) (s : S) : Res S :=
  match l with
  | [] => Ok s
  | x :: l' => let* s' := f s x in forEachRes f l' s'
  end.

Definition simplifyProtectionObject (mwApiProtectionObj : list ProtectionEntry)
  : Res (gmap string (list string)) :=
  forEachRes addProtection mwApiProtectionObj ∅.

(** ** getPrimaryEarthCoordinates *)

(** The callback [c => c.globe === 'earth' && c.primary], as a truth
    value. *)
Definition isPrimaryEarth (c : JSValue) : Res bool :=
  let* globe := get "globe" c in
  Ok (match globe with
      | VStr g => Str.eqb g "earth" && truthy (getProp "primary" c)
      | _ => false
      end).

Record Coordinates := mkCoordinates { latitude : JSValue; longitude : JSValue }.

(** [None] is the [undefined] of a function that falls off its end. *)
Definition getPrimaryEarthCoordinates (coords : JSValue) : Res (option Coordinates) :=
  match coords with
  | VArr items =>
      let* primary := filterRes isPrimaryEarth items in
      match primary with
      | p0 :: _ =>
          Ok (Some {| latitude := getProp "lat" p0;
                      longitude := getProp "lon" p0 |})
      | [] => Ok None
      end
  | _ => Ok None
  end.

(** ** scaledThumbUrl, buildImageUrlSet, buildLeadImageUrls *)

Definition LEAD_IMAGE_S : N := 320.
Definition LEAD_IMAGE_M : N := 640.
Definition LEAD_IMAGE_L : N := 800.
Definition LEAD_IMAGE_XL : N := 1024.

(** The longest prefix of decimal digits, and the rest. *)
Fixpoint spanDigits (s : string) : string * string :=
  match s with
  | String c s' =>
      if Num.isDecimalDigit c
      then let r := spanDigits s' in (String c r.1, r.2)
      else (EmptyString, s)
  | EmptyString => (EmptyString, s)
  end.

Definition noSlash (s : string) : bool :=
  Str.allChars (fun c => negb (bool_decide (c = "/"%char))) s.

(** Does [(\d+)px-[^/]+$] match at the start of the string?  The digits
    and the text after [px-]. *)
Definition widthMatchHere (s : string) : option (string * string) :=
  let r := spanDigits s in
  match r.1, stripPrefix "px-" r.2 with
  | String _ _, Some name =>
      match name with
      | EmptyString => None
      | _ => if noSlash name then Some (r.1, name) else None
      end
  | _, _ => None
  end.

(** [THUMB_WIDTH_REGEX.exec(s)]: the leftmost match, as the text before
    the match, the digits and the text after [px-].  [before] holds the
    text passed over, reversed. *)
Fixpoint widthMatch (before : string) (s : string) : option (string * string * string) :=
  match widthMatchHere s with
  | Some m => Some (Str.rev before, m.1, m.2)
  | None =>
      match s with
      | String c s' => widthMatch (String c before) s'
      | EmptyString => None
      end
  end.

(** [String(n)] for a non-negative integer. *)
Definition decimal (n : N) : string := NilZero.string_of_uint (N.to_uint n).

(** [s.replace(pat, rep)] for a string pattern and a replacement without
    dollar signs. *)
Fixpoint replaceFirst (pat rep s : string) : string :=
  match stripPrefix pat s with
  | Some r => rep +:+ r
  | None =>
      match s with
      | String c s' => String c (replaceFirst pat rep s')
      | EmptyString => EmptyString
      end
  end.

(** The text a replacement template stands for, when the pattern has one
    capture group: [$$], [$&], [$`], [$'] and the references [$1] and [$01]
    to the group are expanded, every other character stands for itself.
    [skip] counts the characters of the current reference still to be
    passed over. *)
Fixpoint substitute (matched before after group : string) (skip : nat)
    (template : string) : string :=
  match template with
  | EmptyString => EmptyString
  | String c rest =>
      match skip with
      | S k => substitute matched before after group k rest
      | O =>
          let go := substitute matched before after group in
          if bool_decide (c = "$"%char) then
            match rest with
            | String "$" _ => String "$" (go 1%nat rest)
            | String "&" _ => matched +:+ go 1%nat rest
            | String "`" _ => before +:+ go 1%nat rest
            | String "'" _ => after +:+ go 1%nat rest
            | String "0" (String "1" _) => group +:+ go 2%nat rest
            | String "1" _ => group +:+ go 1%nat rest
            | _ => String c (go 0%nat rest)
            end
          else String c (go 0%nat rest)
      end
  end.

(** The widths are non-negative integers below 2^53; [None] for
    [originalWidth] is a width that is not given.  The match reaches the
    end of the URL, so nothing follows it. *)
Definition scaledThumbUrl (initialUrl : string) (desiredWidth : N)
    (originalWidth : option N) : option string :=
  if negb (Str.includes "/thumb/" initialUrl) then None else
  match widthMatch EmptyString initialUrl with
  | Some (before, digits, name) =>
      let matched := digits +:+ "px-" +:+ name in
      let maxWidth :=
        match originalWidth with
        | Some w => if (w =? 0)%N then (Num.readDigits 10 0 0 digits).1.1 else w
        | None => (Num.readDigits 10 0 0 digits).1.1
        end in
      if (desiredWidth <? maxWidth)%N then
        let newSubstring := replaceFirst digits (decimal desiredWidth) matched in
        Some (before +:+ substitute matched before EmptyString digits 0 newSubstring)
      else None
  | None => None
  end.

(** [a || b] for an optional string [a]. *)
Definition orString (a : option string) (b : string) : string :=
  match a with
  | Some (String c s) => String c s
  | _ => b
  end.

Definition buildImageUrlSet (initialUrl : string) (desiredWidths : list N)
  : gmap string string :=
  fold_left
    (fun result width =>
       <[decimal width := orString (scaledThumbUrl initialUrl width None) initialUrl]>
         result)
    desiredWidths ∅.

Definition buildLeadImageUrls (initialUrl : string) : gmap string string :=
  buildImageUrlSet initialUrl
    [LEAD_IMAGE_S; LEAD_IMAGE_M; LEAD_IMAGE_L; LEAD_IMAGE_XL].

(** ** Wording of the behaviour, for comparison *)

(** The element is an object whose [globe] is the string [earth] and
    whose [primary] is truthy. *)
Definition primaryEarth (c : JSValue) : bool :=
  match getProp "globe" c with
  | VStr g => Str.eqb g "earth" && truthy (getProp "primary" c)
  | _ => false
  end.

Definition nullish (v : JSValue) : bool :=
  match v with VUndefined | VNull => true | _ => false end.

(** The levels of the entries of one type, in the order of the array. *)
Definition levelsOf (type : string) (entries : list ProtectionEntry) : list string :=
  protection_level <$> filter (fun e => protection_type e = type) entries.

(** The distinct elements of a list, in the order of their first
    occurrences. *)
Definition firstOccurrences (l : list string) : list string :=
  fold_left (fun acc x => if bool_decide (x ∈ acc) then acc else acc ++ [x]) l [].

End Mwapi.

(** * Properties *)

(** ** Loops with throwing callbacks *)

Lemma bindRes_Ok {A B} (c : Res A) (k : A -> Res B) (b : B) :
  bindRes c k = Ok b -> exists a, c = Ok a /\ k a = Ok b.
Proof. destruct c as [a|e]; simpl; [eauto | discriminate]. Qed.

Lemma bindRes_returns {A B} (c : Res A) (k : A -> Res B) :
  returns c = false -> returns (bindRes c k) = false.
Proof. destruct c; simpl; [discriminate | reflexivity]. Qed.

Lemma deref_Ok {A} (o : option A) (a : A) : deref o = Ok a -> o = Some a.
Proof. destruct o; simpl; congruence. Qed.

Ltac inv_bind H :=
  let x := fresh "x" in
  let E := fresh "E" in
  apply bindRes_Ok in H; destruct H as (x & E & H).

Lemma mapRes_Forall2 {A B} (f : A -> Res B) (l : list A) (out : list B) :
  mapRes f l = Ok out <-> Forall2 (fun x y => f x = Ok y) l out.
Proof.
  revert out; induction l as [|x l IH]; intros out; simpl.
  - split; [intros [= <-]; constructor | inversion 1; reflexivity].
  - split.
    + intros H. inv_bind H. inv_bind H. injection H as <-.
      constructor; [assumption | apply IH; assumption].
    + inversion 1 as [|? y ? ys Hy Hys]; subst.
      rewrite Hy; simpl. apply IH in Hys. rewrite Hys. reflexivity.
Qed.

Lemma mapRes_throws {A B} (f : A -> Res B) (l : list A) (x : A) :
  x ∈ l -> returns (f x) = false -> returns (mapRes f l) = false.
Proof.
  induction 1 as [x l|x y l Hin IH]; intros Hx; simpl.
  - apply bindRes_returns; assumption.
  - destruct (f y); simpl; [|reflexivity].
    apply bindRes_returns. apply IH; assumption.
Qed.

Lemma filterRes_filter {A} (f : A -> Res bool) (l out : list A) :
  filterRes f l = Ok out ->
  out = filter (fun x => yes (f x)) l /\ Forall (fun x => returns (f x) = true) l.
Proof.
  revert out; induction l as [|x l IH]; intros out; simpl.
  - intros [= <-]. split; [reflexivity | constructor].
  - intros H. inv_bind H. inv_bind H. injection H as <-.
    destruct (IH _ E0) as [-> HF]. split.
    + rewrite filter_cons, E. destruct x0; reflexivity.
    + constructor; [rewrite E; reflexivity | assumption].
Qed.

Lemma filterRes_throws {A} (f : A -> Res bool) (l : list A) (x : A) :
  x ∈ l -> returns (f x) = false -> returns (filterRes f l) = false.
Proof.
  induction 1 as [x l|x y l Hin IH]; intros Hx; simpl.
  - apply bindRes_returns; assumption.
  - destruct (f y); simpl; [|reflexivity].
    apply bindRes_returns. apply IH; assumption.
Qed.

(** ** Classification *)

Section Classification.

Variable MATHOID_IMG_CLASS : string.


(** An empty [typeof] is falsy and is treated like an absent one. *)
Lemma getMediaType_empty_typeof (elem : Element) :
  getAttribute "typeof" elem = Some EmptyString ->
  getMediaType MATHOID_IMG_CLASS elem =
    if bool_decide (getAttribute "rel" elem = Some "mw:MediaLink")
    then Some Pronunciation
    else if isMathoidImage MATHOID_IMG_CLASS elem then Some MathImage
    else None.
Proof. intros H. unfold getMediaType. rewrite H. reflexivity. Qed.

End Classification.

(** Comparing the first eight characters with an eight-character constant
    is a prefix test. *)
Lemma slice0_startsWith (n : nat) (p s : string) :
  String.length p = n -> (Str.slice0 n s = p <-> Str.startsWith p s = true).
Proof.
  unfold Str.slice0. revert p s; induction n as [|n IH]; intros p s Hlen.
  - destruct p; [|discriminate]. destruct s; simpl; split; auto.
  - destruct p as [|a p]; [discriminate|]. injection Hlen as Hlen.
    destruct s as [|b s]; simpl.
    + split; discriminate.
    + rewrite andb_true_iff, bool_decide_eq_true, <- (IH p s Hlen).
      split; [intros [= -> ->]; auto | intros [-> ->]; reflexivity].
Qed.


(** ** The size filter *)

Lemma append_cons (x : ascii) (a b : string) :
  String x a +:+ b = String x (a +:+ b).
Proof. reflexivity. Qed.

Lemma append_nil (b : string) : EmptyString +:+ b = b.
Proof. reflexivity. Qed.

Lemma append_assoc (a b c : string) : (a +:+ b) +:+ c = a +:+ (b +:+ c).
Proof.
  induction a as [|x a IH]; [reflexivity|].
  rewrite !append_cons, IH. reflexivity.
Qed.

Lemma append_empty_r (a : string) : a +:+ EmptyString = a.
Proof.
  induction a as [|x a IH]; [reflexivity|].
  rewrite append_cons, IH. reflexivity.
Qed.

Lemma rev_onto_app (acc s : string) :
  Str.rev_onto acc s = Str.rev s +:+ acc.
Proof.
  unfold Str.rev. revert acc; induction s as [|c s IH]; intros acc; simpl.
  - reflexivity.
  - rewrite (IH (String c acc)), (IH (String c EmptyString)).
    rewrite append_assoc. reflexivity.
Qed.

Lemma rev_cons (c : ascii) (s : string) :
  Str.rev (String c s) = Str.rev s +:+ String c EmptyString.
Proof. unfold Str.rev at 1. simpl. apply rev_onto_app. Qed.

Lemma rev_app (a b : string) : Str.rev (a +:+ b) = Str.rev b +:+ Str.rev a.
Proof.
  induction a as [|c a IH].
  - rewrite append_nil. symmetry. apply append_empty_r.
  - rewrite append_cons, !rev_cons, IH. apply append_assoc.
Qed.

Lemma rev_involutive (s : string) : Str.rev (Str.rev s) = s.
Proof.
  induction s as [|c s IH]; [reflexivity|].
  rewrite rev_cons, rev_app, IH. reflexivity.
Qed.

Lemma allChars_app (P : ascii -> bool) (a b : string) :
  Str.allChars P (a +:+ b) = Str.allChars P a && Str.allChars P b.
Proof.
  induction a as [|c a IH]; [reflexivity|].
  rewrite append_cons. simpl. rewrite IH, andb_assoc. reflexivity.
Qed.

Lemma allChars_rev (P : ascii -> bool) (s : string) :
  Str.allChars P (Str.rev s) = Str.allChars P s.
Proof.
  induction s as [|c s IH]; [reflexivity|].
  rewrite rev_cons, allChars_app, IH. simpl.
  rewrite andb_true_r, andb_comm. reflexivity.
Qed.

Lemma rev_nonempty (c : ascii) (s : string) : Str.rev (String c s) <> EmptyString.
Proof.
  rewrite rev_cons. destruct (Str.rev s); discriminate.
Qed.

Lemma readDigits_all (acc : N) (cnt : nat) (s : string) (v : N) (n : nat) :
  Num.readDigits 10 acc cnt s = (v, n, EmptyString) ->
  Str.allChars Num.isDecimalDigit s = true.
Proof.
  revert acc cnt; induction s as [|c s IH]; intros acc cnt; simpl.
  - reflexivity.
  - unfold Num.isDecimalDigit. destruct (Num.digit 10 c).
    + intros H. apply IH in H. assumption.
    + discriminate.
Qed.

(** White space is not dropped in front of a decimal digit. *)
Lemma dropWhite_digit (seqs : list string) (c : ascii) (r : string) :
  seqs = Num.whiteSeqs \/ seqs = map Str.rev Num.whiteSeqs ->
  Num.isDecimalDigit c = true ->
  Num.dropWhite seqs 0 (String c r) = String c r.
Proof.
  intros Hseqs Hc.
  destruct c as [b0 b1 b2 b3 b4 b5 b6 b7].
  destruct b0, b1, b2, b3, b4, b5, b6, b7;
    try (cbv in Hc; discriminate Hc);
    destruct Hseqs as [-> | ->]; vm_compute; reflexivity.
Qed.

Lemma trim_digits (s : string) :
  Str.allChars Num.isDecimalDigit s = true -> Num.trim s = s.
Proof.
  intros Hall. unfold Num.trim, Num.trimLeft.
  destruct s as [|c r]; [reflexivity|].
  pose proof Hall as Hc. simpl in Hc. apply andb_true_iff in Hc as [Hc _].
  rewrite dropWhite_digit by auto.
  assert (Hrev : Str.allChars Num.isDecimalDigit (Str.rev (String c r)) = true)
    by (rewrite allChars_rev; assumption).
  pose proof (rev_nonempty c r) as Hne.
  destruct (Str.rev (String c r)) as [|c' r'] eqn:E; [congruence|].
  simpl in Hrev. apply andb_true_iff in Hrev as [Hc' _].
  rewrite dropWhite_digit by auto.
  rewrite <- E. apply rev_involutive.
Qed.

(** [ToNumber] of a string of decimal digits is its decimal value. *)
Lemma ofString_digits (s : string) (v : N) :
  Num.digitsValue s = Some v -> Num.ofString s = Dec false v 0.
Proof.
  unfold Num.digitsValue. intros H.
  destruct (Num.readDigits 10 0 0 s) as [[v' n] rest] eqn:E.
  destruct n as [|n]; [discriminate|].
  destruct rest; [|discriminate]. injection H as ->.
  pose proof (readDigits_all _ _ _ _ _ E) as Hall.
  unfold Num.ofString. rewrite trim_digits by assumption.
  assert (Hdec : Num.unsignedDecimal false s = Dec false v 0).
  { unfold Num.unsignedDecimal.
    assert (Hinf : Str.eqb s "Infinity" = false).
    { unfold Str.eqb. apply bool_decide_eq_false_2. intros ->.
      vm_compute in Hall. discriminate Hall. }
    rewrite Hinf, E. reflexivity. }
  destruct s as [|c r]; [simpl in E; discriminate|].
  simpl in Hall. apply andb_true_iff in Hall as [Hc Hr].
  destruct c as [b0 b1 b2 b3 b4 b5 b6 b7].
  destruct b0, b1, b2, b3, b4, b5, b6, b7;
    try (cbv in Hc; discriminate Hc); try exact Hdec.
  (* the first digit is 0: the second character is not a radix letter *)
  destruct r as [|c2 r2]; [exact Hdec|].
  simpl in Hr. apply andb_true_iff in Hr as [Hc2 _].
  destruct c2 as [b0 b1 b2 b3 b4 b5 b6 b7].
  destruct b0, b1, b2, b3, b4, b5, b6, b7;
    try (cbv in Hc2; discriminate Hc2); exact Hdec.
Qed.

Lemma lt48_integer (v : N) : Num.lt48 (Dec false v 0) = (v <? 48)%N.
Proof.
  unfold Num.lt48, MIN_IMAGE_SIZE. simpl. rewrite Z.mul_1_r.
  destruct (N.ltb_spec v 48); [apply Z.ltb_lt | apply Z.ltb_ge]; lia.
Qed.

Section SizeFilter.

Variable MATHOID_IMG_CLASS : string.
Variable Blacklist : SelectorGroup.

(** An Image wrapper whose [img] is too small is dropped by the filter. *)
Lemma keeps_too_small (elem img : Element) :
  isMathoidImage MATHOID_IMG_CLASS elem = false ->
  getMediaType MATHOID_IMG_CLASS elem = Some Image ->
  resourceOf Image elem = Ok (Some img) ->
  isTooSmall img = true ->
  keeps MATHOID_IMG_CLASS Blacklist elem = Ok false.
Proof.
  intros Hm Ht Hr Hs. unfold keeps. rewrite Hm, Ht.
  cbn [deref bindRes]. rewrite Hr.
  cbn [deref bindRes]. rewrite Hs. reflexivity.
Qed.

(** C2, as the code has it.  An absent [width] or [height] is coerced to
    0, so [isTooSmall] returns true and an Image wrapper with such an
    [img] is dropped; a present attribute whose numeric value is NaN
    fails its own comparison, so the other attribute decides alone; when
    both attributes are strings of decimal digits, [isTooSmall] is true
    exactly when the width or the height is below 48. *)
Theorem isTooSmall_coercion (img : Element) :
  ((getAttribute "width" img = None \/ getAttribute "height" img = None) ->
     isTooSmall img = true /\
     forall elem,
       isMathoidImage MATHOID_IMG_CLASS elem = false ->
       getMediaType MATHOID_IMG_CLASS elem = Some Image ->
       resourceOf Image elem = Ok (Some img) ->
       keeps MATHOID_IMG_CLASS Blacklist elem = Ok false) /\
  (forall s, getAttribute "width" img = Some s -> Num.ofString s = NaN ->
     isTooSmall img = Num.lt48 (Num.ofAttribute (getAttribute "height" img))) /\
  (forall s, getAttribute "height" img = Some s -> Num.ofString s = NaN ->
     isTooSmall img = Num.lt48 (Num.ofAttribute (getAttribute "width" img))) /\
  (forall sw sh w h,
     getAttribute "width" img = Some sw -> getAttribute "height" img = Some sh ->
     Num.digitsValue sw = Some w -> Num.digitsValue sh = Some h ->
     isTooSmall img = (w <? 48)%N || (h <? 48)%N).
Proof.
  assert (Habsent : (getAttribute "width" img = None \/
                     getAttribute "height" img = None) -> isTooSmall img = true).
  { unfold isTooSmall. intros [-> | ->]; simpl.
    - reflexivity.
    - apply orb_true_r. }
  repeat split.
  - apply Habsent; assumption.
  - intros elem Hm Ht Hr. eapply keeps_too_small; eauto.
  - intros s Hw Hnan. unfold isTooSmall. rewrite Hw. simpl. rewrite Hnan. reflexivity.
  - intros s Hh Hnan. unfold isTooSmall. rewrite Hh. simpl. rewrite Hnan.
    apply orb_false_r.
  - intros sw sh w h Hw Hh Hvw Hvh. unfold isTooSmall. rewrite Hw, Hh. simpl.
    rewrite (ofString_digits _ _ Hvw), (ofString_digits _ _ Hvh), !lt48_integer.
    reflexivity.
Qed.

End SizeFilter.

(** An [img] without [width] and [height] is reported as too small, and its
    wrapper is dropped, although the claim says it is kept. *)
Lemma isTooSmall_missing_counterexample :
  getAttribute "width" Sample.imgNoSizeElement = None /\
  getAttribute "height" Sample.imgNoSizeElement = None /\
  isTooSmall Sample.imgNoSizeElement = true /\
  Sample.keeps (Sample.root Sample.figureNoSize) = Ok false /\
  Sample.getMediaItemInfoFromPage [Sample.figureNoSize] = Ok [] /\
  returns (Sample.getMediaItemInfoFromPage [Sample.figureSized]) = true /\
  Sample.getMediaItemInfoFromPage [Sample.figureSized] <> Ok [].
Proof. repeat split; try (vm_compute; reflexivity). vm_compute. discriminate. Qed.

Lemma isTooSmall_coercion_witness :
  isTooSmall Sample.imgNoSizeElement = true /\
  Sample.keeps (Sample.root Sample.figureNoSize) = Ok false.
Proof.
  destruct (isTooSmall_coercion Sample.MATHOID_IMG_CLASS Sample.Blacklist
              Sample.imgNoSizeElement) as [H _].
  destruct H as [H1 H2]; [left; reflexivity|].
  split; [exact H1|].
  apply H2; reflexivity.
Defined.

(** ** The record of one element *)

Section Records.

Variable MATHOID_IMG_CLASS : string.
Variable SpokenWikipediaId : SelectorGroup.
Variable innerHTML : Element -> string.

(** The nearest [section] among the element and its ancestors. *)
Lemma closest_section (elem : Element) :
  closest [[STag "section"]] elem =
    Ok (head (filter (fun t => matchesGroup [[STag "section"]] t = true)
                     (tag elem :: ancestors elem))).
Proof. reflexivity. Qed.

(** What a returned record says about the element it was built from. *)
Lemma itemOf_Ok (elem : Element) (r : MediaItem) :
  itemOf MATHOID_IMG_CLASS SpokenWikipediaId innerHTML elem = Ok r ->
  exists mediaType section,
    getMediaType MATHOID_IMG_CLASS elem = Some mediaType /\
    closest [[STag "section"]] elem = Ok section /\
    section_id r =
      option_map (fun s => Num.parseInt10 (tagAttribute "data-mw-section-id" s))
                 section /\
    type r = name mediaType /\
    showInGallery r =
      bool_decide (mediaType = Image) || bool_decide (mediaType = Video) /\
    (mediaType = Video ->
       exists dataMw,
         JSON.parse (getAttribute "data-mw" elem) = Ok dataMw /\
         start_time r = (if truthy dataMw then getProp "starttime" dataMw else VUndefined) /\
         end_time r = (if truthy dataMw then getProp "endtime" dataMw else VUndefined) /\
         thumb_time r = (if truthy dataMw then getProp "thumbtime" dataMw else VUndefined) /\
         exists l,
           mapRes sourceOf (getElementsByTagName "source" elem) = Ok l /\
           sources r = Some l) /\
    (mediaType <> Video ->
       start_time r = VUndefined /\ end_time r = VUndefined /\
       thumb_time r = VUndefined /\ sources r = None).
Proof.
  unfold itemOf. intros H.
  inv_bind H. apply deref_Ok in E. rename x into mediaType.
  inv_bind H. inv_bind H. inv_bind H. inv_bind H. inv_bind H.
  exists mediaType, x1. split; [assumption|]. split; [assumption|].
  destruct mediaType.
  2: { inv_bind H. rename x4 into dataMw.
       destruct (truthy dataMw) eqn:Etruthy; inv_bind H; injection H as <-;
         simpl; (repeat split; try reflexivity; try congruence);
         intros _; exists dataMw; rewrite Etruthy; eauto 10. }
  all: repeat match goal with
       | H : bindRes _ _ = Ok _ |- _ => inv_bind H
       | H : Ok _ = Ok _ |- _ => injection H as <-
       end.
  all: simpl; repeat split; try reflexivity; try congruence.
Qed.

End Records.

Lemma matches_tag (n : string) (t : Tag) :
  matchesGroup [[STag n]] t = true <-> tagName t = n.
Proof.
  unfold matchesGroup, matchesCompound, matchesSimple, Str.eqb; simpl.
  rewrite orb_false_r, andb_true_r, bool_decide_eq_true. split; congruence.
Qed.

Lemma head_filter_None {A} (P : A -> Prop) `{forall x, Decision (P x)} (l : list A) :
  head (filter P l) = None <-> Forall (fun x => ~ P x) l.
Proof.
  induction l as [|x l IH]; simpl.
  - split; [constructor | reflexivity].
  - rewrite filter_cons. destruct (decide (P x)) as [Hx|Hx]; simpl.
    + split; [discriminate | inversion 1; contradiction].
    + rewrite IH. split; [constructor; assumption | inversion 1; assumption].
Qed.

(** *** [split]: the first piece ends at the first occurrence of the
    separator *)

Lemma startsWith_append (p s : string) :
  Str.startsWith p s = true -> exists rest, s = p +:+ rest.
Proof.
  revert s; induction p as [|a p IH]; intros s; simpl.
  - intros _. exists s. reflexivity.
  - destruct s as [|b s]; [discriminate|].
    rewrite andb_true_iff, bool_decide_eq_true. intros [-> Hp].
    destruct (IH s Hp) as (rest & ->). exists rest. reflexivity.
Qed.

Lemma split_go_skip (sep t : string) :
  forall (acc rest : string),
    Str.split_go sep (String.length t) acc (t +:+ rest) = Str.split_go sep 0 acc rest.
Proof.
  induction t as [|c t IH]; intros acc rest.
  - reflexivity.
  - rewrite append_cons. simpl. apply IH.
Qed.

Lemma split_go_first (sep : string) (s : string) :
  sep <> EmptyString ->
  forall acc : string,
    (Str.split_go sep 0 acc s = [Str.rev acc +:+ s] /\ Str.includes sep s = false) \/
    (exists p rest,
        s = p +:+ sep +:+ rest /\
        Str.split_go sep 0 acc s = (Str.rev acc +:+ p) :: Str.split_go sep 0 EmptyString rest /\
        forall a b, p = a +:+ b -> b <> EmptyString ->
                    Str.startsWith sep (b +:+ sep +:+ rest) = false).
Proof.
  intros Hsep. induction s as [|c s IH]; intros acc.
  - left. simpl. rewrite append_empty_r. split; [reflexivity|].
    destruct sep; [congruence | reflexivity].
  - destruct (Str.startsWith sep (String c s)) eqn:Estart.
    + right. destruct (startsWith_append _ _ Estart) as (rest & Hrest).
      exists EmptyString, rest. split; [exact Hrest|]. split.
      * cbn [Str.split_go]. rewrite Estart. rewrite append_empty_r. f_equal.
        destruct sep as [|a sep']; [congruence|].
        rewrite append_cons in Hrest. injection Hrest as -> ->.
        simpl. rewrite Nat.sub_0_r. apply split_go_skip.
      * intros a b Hab Hb. destruct a; destruct b; try discriminate. congruence.
    + destruct (IH (String c acc)) as [[Hgo Hinc] | (p & rest & Hs & Hgo & Hfirst)].
      * left. cbn [Str.split_go]. rewrite Estart. split.
        { rewrite Hgo, rev_cons, append_assoc. reflexivity. }
        { cbn [Str.includes]. rewrite Estart. exact Hinc. }
      * right. exists (String c p), rest. split; [rewrite Hs; reflexivity|]. split.
        { cbn [Str.split_go]. rewrite Estart, Hgo, rev_cons, append_assoc.
          reflexivity. }
        { intros a b Hab Hb. destruct a as [|c' a].
          - rewrite append_nil in Hab. subst b. rewrite append_cons, <- Hs.
            exact Estart.
          - rewrite append_cons in Hab. injection Hab as <- Hp.
            apply (Hfirst a b); assumption. }
Qed.

(** When [split] yields at least two pieces, the first is the text before
    the first occurrence of the separator and the others are the pieces of
    the text after it. *)
Lemma split_first_piece (sep s p q : string) (ps : list string) :
  sep <> EmptyString ->
  Str.split sep s = p :: q :: ps ->
  exists rest,
    s = p +:+ sep +:+ rest /\
    Str.split sep rest = q :: ps /\
    forall a b, p = a +:+ b -> b <> EmptyString ->
                Str.startsWith sep (b +:+ sep +:+ rest) = false.
Proof.
  intros Hsep Hsplit.
  assert (Hgo : forall t, Str.split sep t = Str.split_go sep 0 EmptyString t).
  { intros t. unfold Str.split. destruct sep; [congruence | reflexivity]. }
  rewrite Hgo in Hsplit.
  destruct (split_go_first sep s Hsep EmptyString)
    as [[Hone _] | (p' & rest & Hs & Hcons & Hfirst)].
  - rewrite Hone in Hsplit. discriminate.
  - rewrite Hcons in Hsplit. injection Hsplit as <- Hrest.
    exists rest. rewrite Hgo. repeat split; assumption.
Qed.

(** For a one-character separator, the first piece does not contain it. *)
Lemma no_early_occurrence (sep p rest : string) :
  String.length sep = 1%nat ->
  (forall a b, p = a +:+ b -> b <> EmptyString ->
               Str.startsWith sep (b +:+ sep +:+ rest) = false) ->
  Str.includes sep p = false.
Proof.
  intros Hlen. destruct sep as [|x [|y sep']]; try discriminate Hlen. clear Hlen.
  induction p as [|c p IH]; intros Hfirst.
  - reflexivity.
  - cbn [Str.includes]. apply orb_false_iff. split.
    + specialize (Hfirst EmptyString (String c p) eq_refl). 
      rewrite append_cons in Hfirst. cbn [Str.startsWith] in Hfirst.
      cbn [Str.startsWith]. rewrite andb_true_r in *. apply Hfirst. discriminate.
    + apply IH. intros a b Hab Hb. apply (Hfirst (String c a) b); [|assumption].
      rewrite append_cons, Hab. reflexivity.
Qed.

Section RecordFields.

Variable MATHOID_IMG_CLASS : string.
Variable SpokenWikipediaId : SelectorGroup.
Variable innerHTML : Element -> string.

(** C10.  When the nearest enclosing [section] (the element itself counts)
    has no [data-mw-section-id] or one that [parseInt] cannot read, the
    record's [section_id] is present and NaN; [section_id] is undefined
    exactly when neither the element nor any ancestor is a [section]. *)
Theorem section_id_NaN_or_undefined (elem : Element) (r : MediaItem) :
  itemOf MATHOID_IMG_CLASS SpokenWikipediaId innerHTML elem = Ok r ->
  (forall s,
      closest [[STag "section"]] elem = Ok (Some s) ->
      (tagAttribute "data-mw-section-id" s = None \/
       exists v, tagAttribute "data-mw-section-id" s = Some v /\
                 Num.parseInt10 (Some v) = NaN) ->
      section_id r = Some NaN) /\
  (section_id r = None <->
     Forall (fun t => tagName t <> "section") (tag elem :: ancestors elem)).
Proof.
  intros H. apply itemOf_Ok in H.
  destruct H as (mediaType & section & _ & Hsec & Hid & _).
  split.
  - intros s Hs Hattr. rewrite Hs in Hsec. injection Hsec as <-.
    rewrite Hid. simpl. destruct Hattr as [-> | (v & -> & Hv)].
    + reflexivity.
    + rewrite Hv. reflexivity.
  - rewrite Hid. rewrite closest_section in Hsec.
    set (chain := filter (fun t => matchesGroup [[STag "section"]] t = true)
                         (tag elem :: ancestors elem)) in *.
    assert (Hhead : section = head chain) by congruence.
    subst section. clear Hsec.
    destruct (head chain) eqn:Eh; cbn [option_map].
    + split; [discriminate|]. intros HF. exfalso.
      assert (Hn : head chain = None).
      { apply head_filter_None. eapply Forall_impl; [exact HF|].
        intros u Hu Hm. apply matches_tag in Hm. contradiction. }
      congruence.
    + split; [|reflexivity]. intros _.
      apply head_filter_None in Eh.
      eapply Forall_impl; [exact Eh|]. intros u Hu Hm.
      apply Hu. apply matches_tag. congruence.
Qed.

(** C8, as the code has it.  The [sources] of a Video record list the
    [source] descendants in document order.  Each entry takes [url] from
    [src]; [mime] is the part of [type] before the first semicolon-space;
    [codecs] is, within the next semicolon-space piece, the text after the
    first double quote up to the next double quote (or the end), split at
    comma-space; [name] and [short_name] come from [data-title] and
    [data-shorttitle]; width and height prefer a non-empty
    [data-file-width] or [data-file-height] and fall back to [data-width]
    or [data-height]. *)
Theorem video_sources (elem : Element) (r : MediaItem) :
  itemOf MATHOID_IMG_CLASS SpokenWikipediaId innerHTML elem = Ok r ->
  getMediaType MATHOID_IMG_CLASS elem = Some Video ->
  exists l,
    sources r = Some l /\
    Forall2
      (fun source s =>
         url s = getAttribute "src" source /\
         (exists ty rest second before after inner,
             getAttribute "type" source = Some ty /\
             ty = mime s +:+ "; " +:+ rest /\
             (forall a b, mime s = a +:+ b -> b <> EmptyString ->
                          Str.startsWith "; " (b +:+ "; " +:+ rest) = false) /\
             Str.split "; " rest !! 0%nat = Some second /\
             second = before +:+ String JSON.dquote EmptyString +:+ after /\
             Str.includes (String JSON.dquote EmptyString) before = false /\
             Str.split (String JSON.dquote EmptyString) after !! 0%nat = Some inner /\
             codecs s = Str.split ", " inner) /\
         source_name s = getAttribute "data-title" source /\
         short_name s = getAttribute "data-shorttitle" source /\
         width s = (if truthy (ofAttr (getAttribute "data-file-width" source))
                    then getAttribute "data-file-width" source
                    else getAttribute "data-width" source) /\
         height s = (if truthy (ofAttr (getAttribute "data-file-height" source))
                     then getAttribute "data-file-height" source
                     else getAttribute "data-height" source))
      (filter (fun x => tagName (tag x) = "source") (descendants elem)) l.
Proof.
  intros H Hty. apply itemOf_Ok in H.
  destruct H as (mediaType & section & Hty' & _ & _ & _ & _ & HV & _).
  rewrite Hty in Hty'. injection Hty' as <-.
  destruct (HV eq_refl) as (dataMw & _ & _ & _ & _ & l & Hl & Hs).
  exists l. split; [assumption|].
  apply mapRes_Forall2 in Hl. unfold getElementsByTagName in Hl.
  eapply Forall2_impl; [exact Hl|].
  intros source s Hsrc. unfold sourceOf in Hsrc.
  inv_bind Hsrc. apply deref_Ok in E. rename x into ty.
  destruct (Str.split "; " ty) as [|p0 ps] eqn:Esplit.
  { discriminate Hsrc. }
  inv_bind Hsrc. inv_bind Hsrc. injection Hsrc as <-.
  cbn [url mime codecs source_name short_name width height].
  unfold splitAt in E0, E1.
  destruct ((p0 :: ps) !! 1%nat) as [second|] eqn:E2; [|discriminate].
  assert (Hx : x = Str.split (String JSON.dquote EmptyString) second) by congruence.
  subst x. clear E0.
  destruct (Str.split (String JSON.dquote EmptyString) second !! 1%nat)
    as [inner|] eqn:E3; [|discriminate].
  assert (Hx : x0 = Str.split ", " inner) by congruence.
  subst x0. clear E1.
  destruct ps as [|second' ps']; [discriminate E2|].
  injection E2 as ->.
  destruct (split_first_piece "; " ty p0 second ps') as (rest & Htype & Hrest & Hfirst);
    [discriminate | exact Esplit |].
  destruct (Str.split (String JSON.dquote EmptyString) second)
    as [|before [|inner' qs]] eqn:Equote; try discriminate E3.
  injection E3 as ->.
  destruct (split_first_piece (String JSON.dquote EmptyString) second before inner qs)
    as (after & Hsecond & Hafter & Hbefore); [discriminate | exact Equote |].
  repeat split.
  exists ty, rest, second, before, after, inner.
  rewrite Hrest, Hafter. repeat split; try assumption.
  apply no_early_occurrence with (rest := after); [reflexivity | exact Hbefore].
Qed.

End RecordFields.

Lemma section_id_NaN_or_undefined_witness :
  exists r,
    Sample.itemOf Sample.figureInBadSection = Ok r /\ section_id r = Some NaN.
Proof.
  destruct (Sample.itemOf Sample.figureInBadSection) as [r|] eqn:Hr;
    [|vm_compute in Hr; discriminate Hr].
  exists r. split; [reflexivity|].
  destruct (section_id_NaN_or_undefined Sample.MATHOID_IMG_CLASS
              Sample.SpokenWikipediaId Sample.innerHTML
              Sample.figureInBadSection r Hr) as [H _].
  apply (H (mkTag "section" [("data-mw-section-id", "abc")])).
  - reflexivity.
  - right. exists "abc". split; reflexivity.
Defined.

(** A [type] attribute with a semicolon in its first part and commas
    without a following space: the code and the wording of the claim give
    different MIME types and codec lists. *)
Lemma video_sources_counterexample :
  Sample.getMediaType (Sample.root (Sample.videoWith [] Sample.oddType)) = Some Video /\
  (exists r l,
      Sample.itemOf (Sample.root (Sample.videoWith [] Sample.oddType)) = Ok r /\
      sources r = Some l /\
      map mime l = ["a;b"; "video/webm"] /\
      map codecs l = [["x,y"]; ["vp8"]]) /\
  specMime Sample.oddType = "a" /\
  specCodecs "x,y" = ["x"; "y"].
Proof.
  split; [reflexivity|]. split; [|split; reflexivity].
  eexists. eexists. split; [vm_compute; reflexivity|].
  repeat split.
Qed.

Lemma video_sources_witness :
  exists r l,
    Sample.itemOf (Sample.root (Sample.videoWith [] Sample.oggType)) = Ok r /\
    sources r = Some l /\ length l = 2%nat.
Proof.
  destruct (Sample.itemOf (Sample.root (Sample.videoWith [] Sample.oggType)))
    as [r|] eqn:Hr; [|vm_compute in Hr; discriminate Hr].
  destruct (video_sources Sample.MATHOID_IMG_CLASS Sample.SpokenWikipediaId
              Sample.innerHTML _ r Hr) as (l & Hl & HF); [reflexivity|].
  exists r, l. split; [reflexivity|]. split; [exact Hl|].
  apply Forall2_length in HF. rewrite <- HF. reflexivity.
Defined.

(** ** The whole extraction *)

Section Extraction.

Variable MATHOID_IMG_CLASS : string.
Variable MediaSelectors : SelectorGroup.
Variable Blacklist : SelectorGroup.
Variable SpokenWikipediaId : SelectorGroup.
Variable innerHTML : Element -> string.

(** An exception in the filter callback aborts the extraction. *)
Lemma extraction_throws_in_filter (doc : Document) (elem : Element) :
  elem ∈ documentElements doc ->
  matchesGroup MediaSelectors (tag elem) = true ->
  returns (keeps MATHOID_IMG_CLASS Blacklist elem) = false ->
  returns (getMediaItemInfoFromPage MATHOID_IMG_CLASS MediaSelectors Blacklist
             SpokenWikipediaId innerHTML doc) = false.
Proof.
  intros Hin Hm Hk. unfold getMediaItemInfoFromPage, querySelectorAll.
  destruct (checkSelector MediaSelectors); [|reflexivity].
  cbn [bindRes]. apply bindRes_returns.
  apply (filterRes_throws _ _ elem); [|assumption].
  apply list_elem_of_filter. split; assumption.
Qed.

(** An exception while building the record of a surviving element aborts
    the extraction. *)
Lemma extraction_throws_in_map (doc : Document) (elem : Element) :
  elem ∈ documentElements doc ->
  survives MATHOID_IMG_CLASS MediaSelectors Blacklist elem ->
  returns (itemOf MATHOID_IMG_CLASS SpokenWikipediaId innerHTML elem) = false ->
  returns (getMediaItemInfoFromPage MATHOID_IMG_CLASS MediaSelectors Blacklist
             SpokenWikipediaId innerHTML doc) = false.
Proof.
  intros Hin [Hm Hk] Hi. unfold getMediaItemInfoFromPage, querySelectorAll.
  destruct (checkSelector MediaSelectors); [|reflexivity].
  cbn [bindRes].
  destruct (filterRes _ _) as [elems|] eqn:Ef; [|reflexivity].
  cbn [bindRes]. apply bindRes_returns.
  apply filterRes_filter in Ef as [-> _].
  apply (mapRes_throws _ _ elem); [|assumption].
  apply list_elem_of_filter. split.
  - rewrite Hk. exact I.
  - apply list_elem_of_filter. split; assumption.
Qed.

(** C1, as the code has it.  An absent [data-mw] is parsed as [null] and
    leaves the three time fields of the record unset; a [data-mw] of a
    surviving Video element that is not valid JSON makes [JSON.parse] throw,
    and then the extraction returns no record list. *)
Theorem data_mw_absent_or_malformed (elem : Element) :
  getMediaType MATHOID_IMG_CLASS elem = Some Video ->
  (getAttribute "data-mw" elem = None ->
     JSON.parse (getAttribute "data-mw" elem) = Ok VNull /\
     forall r,
       itemOf MATHOID_IMG_CLASS SpokenWikipediaId innerHTML elem = Ok r ->
       start_time r = VUndefined /\ end_time r = VUndefined /\
       thumb_time r = VUndefined) /\
  (returns (JSON.parse (getAttribute "data-mw" elem)) = false ->
     returns (itemOf MATHOID_IMG_CLASS SpokenWikipediaId innerHTML elem) = false /\
     forall doc,
       elem ∈ documentElements doc ->
       survives MATHOID_IMG_CLASS MediaSelectors Blacklist elem ->
       returns (getMediaItemInfoFromPage MATHOID_IMG_CLASS MediaSelectors
                  Blacklist SpokenWikipediaId innerHTML doc) = false).
Proof.
  intros Hty.
  assert (Hitem : returns (JSON.parse (getAttribute "data-mw" elem)) = false ->
                  returns (itemOf MATHOID_IMG_CLASS SpokenWikipediaId innerHTML elem)
                  = false).
  { intros Hp.
    destruct (itemOf MATHOID_IMG_CLASS SpokenWikipediaId innerHTML elem)
      as [r|] eqn:Ei; [|reflexivity].
    apply itemOf_Ok in Ei.
    destruct Ei as (mediaType & section & Hty' & _ & _ & _ & _ & HV & _).
    rewrite Hty in Hty'. injection Hty' as <-.
    destruct (HV eq_refl) as (dataMw & Hparse & _).
    rewrite Hparse in Hp. discriminate Hp. }
  split.
  - intros Habs. rewrite Habs. split; [reflexivity|].
    intros r Hr. apply itemOf_Ok in Hr.
    destruct Hr as (mediaType & section & Hty' & _ & _ & _ & _ & HV & _).
    rewrite Hty in Hty'. injection Hty' as <-.
    destruct (HV eq_refl) as (dataMw & Hparse & Hs & He & Ht & _).
    rewrite Habs in Hparse.
    assert (dataMw = VNull) by (vm_compute in Hparse; congruence). subst dataMw.
    auto.
  - intros Hp. split; [auto|].
    intros doc Hin Hsurv. eapply extraction_throws_in_map; eauto.
Qed.

(** An Image wrapper without an [img] makes the filter callback throw
    (the size check reads an attribute of [null]), and so aborts the
    extraction. *)
Lemma missing_img_aborts (doc : Document) (elem : Element) :
  elem ∈ documentElements doc ->
  matchesGroup MediaSelectors (tag elem) = true ->
  isMathoidImage MATHOID_IMG_CLASS elem = false ->
  getMediaType MATHOID_IMG_CLASS elem = Some Image ->
  resourceOf Image elem = Ok None ->
  keeps MATHOID_IMG_CLASS Blacklist elem = Throw TypeError /\
  returns (getMediaItemInfoFromPage MATHOID_IMG_CLASS MediaSelectors Blacklist
             SpokenWikipediaId innerHTML doc) = false.
Proof.
  intros Hin Hm Hmath Hty Hres.
  assert (Hk : keeps MATHOID_IMG_CLASS Blacklist elem = Throw TypeError).
  { unfold keeps. rewrite Hmath, Hty. cbn [deref bindRes]. rewrite Hres. reflexivity. }
  split; [assumption|].
  eapply extraction_throws_in_filter; eauto. rewrite Hk. reflexivity.
Qed.

End Extraction.

(** A Video wrapper whose [data-mw] is not valid JSON: the extraction
    throws instead of returning a record list. *)
Lemma malformed_data_mw_counterexample :
  let doc := [Sample.videoWith [("data-mw", "{")] Sample.oggType] in
  Sample.getMediaType (Sample.root (Sample.videoWith [("data-mw", "{")] Sample.oggType))
    = Some Video /\
  JSON.parse (Some "{") = Throw SyntaxError /\
  Sample.getMediaItemInfoFromPage doc = Throw SyntaxError /\
  returns (Sample.getMediaItemInfoFromPage [Sample.videoWith [] Sample.oggType]) = true.
Proof. repeat split; vm_compute; reflexivity. Qed.

Lemma data_mw_absent_or_malformed_witness :
  let elem := Sample.root (Sample.videoWith [("data-mw", "{")] Sample.oggType) in
  returns (Sample.getMediaItemInfoFromPage
             [Sample.videoWith [("data-mw", "{")] Sample.oggType]) = false.
Proof.
  intros elem.
  destruct (data_mw_absent_or_malformed Sample.MATHOID_IMG_CLASS
              Sample.MediaSelectors Sample.Blacklist Sample.SpokenWikipediaId
              Sample.innerHTML elem) as [_ H]; [reflexivity|].
  destruct H as [_ H]; [reflexivity|].
  apply H.
  - vm_compute. left.
  - split; vm_compute; reflexivity.
Defined.

(** The failing inputs of C3.  An Image wrapper without an [img] makes the
    extraction throw; a Video wrapper without a [video] is kept by the
    filter, gets no title, and makes the deduplication throw. *)
Lemma missing_resource_throws :
  resourceOf Image (Sample.root Sample.figureNoImg) = Ok None /\
  Sample.keeps (Sample.root Sample.figureNoImg) = Throw TypeError /\
  Sample.getMediaItemInfoFromPage [Sample.figureNoImg] = Throw TypeError /\
  resourceOf Video (Sample.root Sample.figureNoVideo) = Ok None /\
  Sample.keeps (Sample.root Sample.figureNoVideo) = Ok true /\
  returns (Sample.itemOf (Sample.root Sample.figureNoVideo)) = true /\
  Sample.getMediaItemInfoFromPage [Sample.figureNoVideo] = Throw TypeError /\
  Sample.getMediaItemInfoFromPage [Sample.figureSized; Sample.figureNoImg]
    = Throw TypeError.
Proof. repeat split; vm_compute; reflexivity. Qed.

(** ** Deduplication and order *)

Section Dedup.

Context {A B K : Type} `{EqDecision K}.
Variable P : A -> Prop.
Context `{forall x, Decision (P x)}.
Variable item : A -> Res B.
Variable key : B -> Res K.

Lemma FirstOfKey_shift (e : A) (D : list A) (seen seen' : list K) (p : nat) (r : B) :
  FirstOfKey P item key D seen' p r ->
  (forall k, k ∈ seen -> k ∈ seen') ->
  (forall r0 k0, P e -> item e = Ok r0 -> key r0 = Ok k0 -> k0 ∈ seen') ->
  FirstOfKey P item key (e :: D) seen (S p) r.
Proof.
  intros (e1 & k & Hl & HP & Hi & Hk & Hs & Hfirst) Hsub Hhead.
  exists e1, k. repeat split; try assumption.
  - intros Hin. apply Hs, Hsub, Hin.
  - intros q e' r' Hq Hl' HP' Hi' Hk'. destruct q as [|q]; simpl in Hl'.
    + injection Hl' as <-. apply Hs. eapply Hhead; eauto.
    + apply (Hfirst q e' r'); auto. lia.
Qed.

(** The records that [_.uniq] keeps, with their positions: positions
    increase, and every kept record is the first of its key. *)
Lemma dedup_positions (D : list A) :
  forall (seen : list K) (results out : list B),
    Forall2 (fun e r => item e = Ok r) (filter P D) results ->
    uniq_go key seen results = Ok out ->
    exists pos : list nat,
      StronglySorted lt pos /\
      Forall2 (FirstOfKey P item key D seen) pos out.
Proof.
  induction D as [|e D IH]; intros seen results out HF Hu.
  - apply Forall2_nil_inv_l in HF. subst results. injection Hu as <-.
    exists []. split; constructor.
  - rewrite filter_cons in HF. destruct (decide (P e)) as [HP|HP].
    + apply Forall2_cons_inv_l in HF as (r & results' & Hr & HF & ->).
      simpl in Hu. inv_bind Hu. rename x into k.
      destruct (bool_decide (k ∈ seen)) eqn:Eseen.
      * apply bool_decide_eq_true in Eseen.
        destruct (IH _ _ _ HF Hu) as (pos & Hsorted & Hpos).
        exists (S <$> pos). split.
        { eapply StronglySorted_fmap; [|exact Hsorted]. intros; lia. }
        apply Forall2_fmap_l. eapply Forall2_impl; [exact Hpos|].
        intros p r' Hp. eapply FirstOfKey_shift; eauto.
        intros r0 k0 _ Hr0 Hk0. congruence.
      * apply bool_decide_eq_false in Eseen.
        inv_bind Hu. injection Hu as <-. rename x into out'.
        destruct (IH _ _ _ HF E0) as (pos & Hsorted & Hpos).
        exists (0%nat :: (S <$> pos)). split.
        { constructor.
          - eapply StronglySorted_fmap; [|exact Hsorted]. intros; lia.
          - apply Forall_fmap, Forall_true. intros; simpl; lia. }
        constructor.
        { exists e, k. repeat split; auto. intros q e' r' Hq. lia. }
        apply Forall2_fmap_l. eapply Forall2_impl; [exact Hpos|].
        intros p r' Hp. eapply FirstOfKey_shift; eauto.
        { intros k0 Hk0. apply elem_of_app. left. exact Hk0. }
        intros r0 k0 _ Hr0 Hk0. apply elem_of_app. right.
        assert (k0 = k) by congruence. subst k0. apply list_elem_of_singleton.
        reflexivity.
    + destruct (IH _ _ _ HF Hu) as (pos & Hsorted & Hpos).
      exists (S <$> pos). split.
      { eapply StronglySorted_fmap; [|exact Hsorted]. intros; lia. }
      apply Forall2_fmap_l. eapply Forall2_impl; [exact Hpos|].
      intros p r' Hp. eapply FirstOfKey_shift; eauto.
      intros r0 k0 HP'. contradiction.
Qed.

(** The keys of the kept records are pairwise distinct and new. *)
Lemma uniq_go_NoDup (l : list B) :
  forall (seen : list K) (out : list B),
    uniq_go key seen l = Ok out ->
    exists ks,
      Forall2 (fun r k => key r = Ok k) out ks /\
      NoDup ks /\ (forall k, k ∈ ks -> k ∉ seen).
Proof.
  induction l as [|x l IH]; intros seen out Hu; simpl in Hu.
  - injection Hu as <-. exists []. repeat split; [constructor | constructor |].
    intros k Hk. inversion Hk.
  - inv_bind Hu. rename x0 into k.
    destruct (bool_decide (k ∈ seen)) eqn:Eseen.
    + apply IH. exact Hu.
    + apply bool_decide_eq_false in Eseen.
      inv_bind Hu. injection Hu as <-.
      destruct (IH _ _ E0) as (ks & HF & Hnd & Hnew).
      exists (k :: ks). split; [constructor; assumption|]. split.
      * constructor; [|assumption]. intros Hin. apply (Hnew k Hin).
        apply elem_of_app. right. apply list_elem_of_singleton. reflexivity.
      * intros k' Hk'. apply elem_of_cons in Hk' as [-> | Hk']; [assumption|].
        intros Hin. apply (Hnew k' Hk'). apply elem_of_app. left. exact Hin.
Qed.

(** Every key of the input is taken already or carried by a kept record. *)
Lemma uniq_go_covers (l : list B) :
  forall (seen : list K) (out : list B),
    uniq_go key seen l = Ok out ->
    forall r, r ∈ l ->
      exists k, key r = Ok k /\
                (k ∈ seen \/ exists r', r' ∈ out /\ key r' = Ok k).
Proof.
  induction l as [|x l IH]; intros seen out Hu r Hr; [inversion Hr|].
  simpl in Hu. inv_bind Hu. rename x0 into k.
  destruct (bool_decide (k ∈ seen)) eqn:Eseen.
  - apply bool_decide_eq_true in Eseen.
    apply elem_of_cons in Hr as [-> | Hr]; [eauto|].
    apply (IH _ _ Hu r Hr).
  - inv_bind Hu. injection Hu as <-.
    apply elem_of_cons in Hr as [-> | Hr].
    + exists k. split; [assumption|]. right. exists x. split; [left | assumption].
    + destruct (IH _ _ E0 r Hr) as (k' & Hk' & Hcase).
      exists k'. split; [assumption|].
      destruct Hcase as [Hin | (r' & Hr' & Hkr')].
      * apply elem_of_app in Hin as [Hin | Hin]; [left; assumption|].
        apply list_elem_of_singleton in Hin. subst k'.
        right. exists x. split; [left | assumption].
      * right. exists r'. split; [right; assumption | assumption].
Qed.

End Dedup.

Section Output.

Variable MATHOID_IMG_CLASS : string.
Variable MediaSelectors : SelectorGroup.
Variable Blacklist : SelectorGroup.
Variable SpokenWikipediaId : SelectorGroup.
Variable innerHTML : Element -> string.

(** A returned list is [_.uniq] of the records of the surviving candidates,
    taken in document order. *)
Lemma extraction_Ok (doc : Document) (out : list MediaItem) :
  getMediaItemInfoFromPage MATHOID_IMG_CLASS MediaSelectors Blacklist
    SpokenWikipediaId innerHTML doc = Ok out ->
  exists results,
    Forall2 (fun e r => itemOf MATHOID_IMG_CLASS SpokenWikipediaId innerHTML e = Ok r)
            (filter (survives MATHOID_IMG_CLASS MediaSelectors Blacklist)
                    (documentElements doc))
            results /\
    uniq_go keyOf [] results = Ok out.
Proof.
  unfold getMediaItemInfoFromPage, querySelectorAll. intros H.
  inv_bind H. inv_bind E. injection E as <-. clear E0 x0.
  apply bindRes_Ok in H as (elems & Helems & H).
  apply bindRes_Ok in H as (results & Hresults & H).
  exists results. split; [|exact H].
  apply mapRes_Forall2 in Hresults. apply filterRes_filter in Helems as [-> _].
  rewrite list_filter_filter in Hresults.
  erewrite list_filter_iff; [exact Hresults|].
  intros e. unfold survives.
  destruct (keeps MATHOID_IMG_CLASS Blacklist e) as [[|]|]; simpl;
    split; intros [H1 H2]; split; auto; try discriminate; try contradiction.
Qed.

(** A record with an [original] has no title. *)
Lemma itemOf_original (elem : Element) (r : MediaItem) :
  itemOf MATHOID_IMG_CLASS SpokenWikipediaId innerHTML elem = Ok r ->
  original r = None \/ title r = None.
Proof.
  unfold itemOf. intros H.
  inv_bind H. apply deref_Ok in E. rename x into mediaType.
  inv_bind H. inv_bind H. inv_bind H. inv_bind H. inv_bind H.
  destruct mediaType.
  2: { inv_bind H. destruct (truthy x4); inv_bind H; injection H as <-; left;
       reflexivity. }
  all: repeat match goal with
       | H : bindRes _ _ = Ok _ |- _ => inv_bind H
       | H : Ok _ = Ok _ |- _ => injection H as <-
       end.
  all: try (left; reflexivity).
  right. simpl. unfold resourceOf in E0. simpl in E0. injection E0 as <-.
  congruence.
Qed.

(** On the records of the extraction the iteratee of [_.uniq] computes the
    key of the specification. *)
Lemma keyOf_dedupKey (elem : Element) (r : MediaItem) (k : option string) :
  itemOf MATHOID_IMG_CLASS SpokenWikipediaId innerHTML elem = Ok r ->
  keyOf r = Ok k -> dedupKey r = Some k.
Proof.
  intros Hi Hk. apply itemOf_original in Hi.
  unfold keyOf in Hk. unfold dedupKey.
  destruct (title r) as [t|] eqn:Et; simpl in Hk.
  - destruct (negb (Str.eqb t EmptyString)).
    + congruence.
    + inv_bind Hk. apply deref_Ok in E. destruct Hi; congruence.
  - inv_bind Hk. apply deref_Ok in E. rewrite E. simpl. congruence.
Qed.

(** C4.  The returned list follows document order: there are strictly
    increasing positions in the document-order list of elements such that
    each record is the record of the element at its position, that element
    is a surviving candidate, and no surviving candidate at an earlier
    position has a record with the same key. *)
Theorem output_in_document_order (doc : Document) (out : list MediaItem) :
  getMediaItemInfoFromPage MATHOID_IMG_CLASS MediaSelectors Blacklist
    SpokenWikipediaId innerHTML doc = Ok out ->
  exists pos : list nat,
    StronglySorted lt pos /\
    Forall2
      (FirstOfKey (survives MATHOID_IMG_CLASS MediaSelectors Blacklist)
                  (itemOf MATHOID_IMG_CLASS SpokenWikipediaId innerHTML)
                  keyOf (documentElements doc) [])
      pos out.
Proof.
  intros H. apply extraction_Ok in H as (results & HF & Hu).
  eapply dedup_positions; eauto.
Qed.

(** C5.  Records are deduplicated by title when there is one, else by
    [original.source]: the keys of the returned records are pairwise
    distinct; every surviving candidate has its key represented by a
    returned record; and the record returned for a key is, unchanged, the
    record of the first surviving candidate with that key. *)
Theorem output_deduplicated (doc : Document) (out : list MediaItem) :
  getMediaItemInfoFromPage MATHOID_IMG_CLASS MediaSelectors Blacklist
    SpokenWikipediaId innerHTML doc = Ok out ->
  (exists keys,
      Forall2 (fun r k => dedupKey r = Some k) out keys /\ NoDup keys) /\
  (forall e,
      e ∈ documentElements doc ->
      survives MATHOID_IMG_CLASS MediaSelectors Blacklist e ->
      exists r k r',
        itemOf MATHOID_IMG_CLASS SpokenWikipediaId innerHTML e = Ok r /\
        dedupKey r = Some k /\ r' ∈ out /\ dedupKey r' = Some k) /\
  (forall r,
      r ∈ out ->
      exists p e k,
        documentElements doc !! p = Some e /\
        survives MATHOID_IMG_CLASS MediaSelectors Blacklist e /\
        itemOf MATHOID_IMG_CLASS SpokenWikipediaId innerHTML e = Ok r /\
        dedupKey r = Some k /\
        forall q e' r',
          (q < p)%nat -> documentElements doc !! q = Some e' ->
          survives MATHOID_IMG_CLASS MediaSelectors Blacklist e' ->
          itemOf MATHOID_IMG_CLASS SpokenWikipediaId innerHTML e' = Ok r' ->
          dedupKey r' <> Some k).
Proof.
  intros H. apply extraction_Ok in H as (results & HF & Hu).
  destruct (dedup_positions _ _ _ _ _ _ _ HF Hu) as (pos & _ & Hpos).
  assert (Hout : forall r, r ∈ out ->
            exists p, FirstOfKey (survives MATHOID_IMG_CLASS MediaSelectors Blacklist)
                        (itemOf MATHOID_IMG_CLASS SpokenWikipediaId innerHTML)
                        keyOf (documentElements doc) [] p r).
  { intros r Hr. apply list_elem_of_lookup in Hr as (i & Hi).
    destruct (Forall2_lookup_r _ _ _ _ _ Hpos Hi) as (p & _ & Hp). eauto. }
  split; [|split].
  - destruct (uniq_go_NoDup _ _ _ _ Hu) as (ks & Hks & Hnd & _).
    exists ks. split; [|assumption].
    apply Forall2_same_length_lookup. split; [eapply Forall2_length; eauto|].
    intros i r k Hr Hk.
    destruct (Forall2_lookup_l _ _ _ _ _ Hks Hr) as (k' & Hk' & Hkey).
    assert (k' = k) by congruence. subst k'.
    destruct (Hout r) as (p & e & k0 & _ & _ & Hitem & _).
    { apply list_elem_of_lookup. eauto. }
    eapply keyOf_dedupKey; eauto.
  - intros e He Hs.
    assert (Hin : e ∈ filter (survives MATHOID_IMG_CLASS MediaSelectors Blacklist)
                         (documentElements doc))
      by (apply list_elem_of_filter; auto).
    apply list_elem_of_lookup in Hin as (i & Hi).
    destruct (Forall2_lookup_l _ _ _ _ _ HF Hi) as (r & Hr & Hitem).
    destruct (uniq_go_covers _ _ _ _ Hu r) as (k & Hk & Hcase).
    { apply list_elem_of_lookup. eauto. }
    destruct Hcase as [Hin | (r' & Hr' & Hk')]; [inversion Hin|].
    exists r, k, r'. split; [assumption|]. split; [eapply keyOf_dedupKey; eauto|].
    split; [assumption|].
    destruct (Hout r' Hr') as (p & e' & k0 & _ & _ & Hitem' & _).
    eapply keyOf_dedupKey; eauto.
  - intros r Hr. destruct (Hout r Hr) as (p & e & k & Hl & Hs & Hi & Hk & _ & Hfirst).
    exists p, e, k. repeat split; try assumption; try apply Hs.
    + eapply keyOf_dedupKey; eauto.
    + intros q e' r' Hq Hl' Hs' Hi' Hd.
      destruct (uniq_go_covers _ _ _ _ Hu r') as (k' & Hk' & _).
      { assert (Hin : e' ∈ filter (survives MATHOID_IMG_CLASS MediaSelectors Blacklist)
                             (documentElements doc)).
        { apply list_elem_of_filter. split; [assumption|].
          apply list_elem_of_lookup. eauto. }
        apply list_elem_of_lookup in Hin as (i & Hi0).
        destruct (Forall2_lookup_l _ _ _ _ _ HF Hi0) as (r0 & Hr0 & Hitem0).
        assert (r0 = r') by congruence. subst r0.
        apply list_elem_of_lookup. eauto. }
      apply (Hfirst q e' r'); auto.
      rewrite (keyOf_dedupKey _ _ _ Hi' Hk') in Hd. congruence.
Qed.

End Output.

Lemma output_in_document_order_witness :
  exists out pos,
    Sample.getMediaItemInfoFromPage Sample.pageWithDuplicate = Ok out /\
    StronglySorted lt pos /\ length pos = length out /\ length out = 4%nat.
Proof.
  destruct (Sample.getMediaItemInfoFromPage Sample.pageWithDuplicate)
    as [out|] eqn:Hout; [|vm_compute in Hout; discriminate Hout].
  destruct (output_in_document_order Sample.MATHOID_IMG_CLASS
              Sample.MediaSelectors Sample.Blacklist Sample.SpokenWikipediaId
              Sample.innerHTML Sample.pageWithDuplicate out Hout)
    as (pos & Hsorted & Hpos).
  exists out, pos. split; [reflexivity|]. split; [exact Hsorted|].
  split; [eapply Forall2_length; exact Hpos|].
  vm_compute in Hout. injection Hout as <-. reflexivity.
Defined.

Lemma output_deduplicated_witness :
  exists out keys,
    Sample.getMediaItemInfoFromPage Sample.pageWithDuplicate = Ok out /\
    Forall2 (fun r k => dedupKey r = Some k) out keys /\ NoDup keys.
Proof.
  destruct (Sample.getMediaItemInfoFromPage Sample.pageWithDuplicate)
    as [out|] eqn:Hout; [|vm_compute in Hout; discriminate Hout].
  destruct (output_deduplicated Sample.MATHOID_IMG_CLASS
              Sample.MediaSelectors Sample.Blacklist Sample.SpokenWikipediaId
              Sample.innerHTML Sample.pageWithDuplicate out Hout)
    as ((keys & Hkeys & Hnd) & _).
  exists out, keys. split; [reflexivity|]. split; assumption.
Defined.

(** The titles and sources returned for the sample page, in order. *)
Lemma pageWithDuplicate_keys :
  (fun out => map dedupKey out) <$>
    (match Sample.getMediaItemInfoFromPage Sample.pageWithDuplicate with
     | Ok out => Some out
     | Throw _ => None
     end)
  = Some [Some (Some "File:Foo.jpg"); Some (Some "File:V.ogv");
          Some (Some "m.svg"); Some (Some "File:Example.ogg")].
Proof. vm_compute. reflexivity. Qed.

(** ** The merge *)

Section Merge.

Variable NumberToString : Number -> string.
Variable apiResponse : gmap string (gmap string JSValue).

Lemma prop_delete_ne (k k' : string) (o : gmap string JSValue) :
  k <> k' -> prop k (delete k' o) = prop k o.
Proof. intros Hne. unfold prop. rewrite lookup_delete_ne by congruence. reflexivity. Qed.

Lemma prop_delete_eq (k : string) (o : gmap string JSValue) :
  prop k (delete k o) = VUndefined.
Proof. unfold prop. rewrite lookup_delete_eq. reflexivity. Qed.

Lemma combineItem_merged (o : gmap string JSValue) :
  combineItem NumberToString apiResponse o =
    if truthy (prop "sources" (merged NumberToString apiResponse o))
    then delete "original" (delete "title" (merged NumberToString apiResponse o))
    else delete "title" (merged NumberToString apiResponse o).
Proof.
  unfold combineItem, merged. rewrite prop_delete_ne by discriminate. reflexivity.
Qed.

Lemma combineItem_title (o : gmap string JSValue) :
  combineItem NumberToString apiResponse o !! "title" = None.
Proof.
  rewrite combineItem_merged. destruct (truthy _).
  - rewrite lookup_delete_ne by discriminate. apply lookup_delete_eq.
  - apply lookup_delete_eq.
Qed.

Lemma combineItem_sources (o : gmap string JSValue) :
  prop "sources" (combineItem NumberToString apiResponse o) = prop "sources" (merged NumberToString apiResponse o).
Proof.
  rewrite combineItem_merged. destruct (truthy _);
    rewrite !prop_delete_ne by discriminate; reflexivity.
Qed.

Lemma combineItem_original (o : gmap string JSValue) :
  truthy (prop "sources" (combineItem NumberToString apiResponse o)) = true ->
  combineItem NumberToString apiResponse o !! "original" = None.
Proof.
  rewrite combineItem_sources, combineItem_merged. intros ->.
  apply lookup_delete_eq.
Qed.

(** Merging a second time changes nothing. *)
Lemma combineItem_idem (o : gmap string JSValue) :
  combineItem NumberToString apiResponse (combineItem NumberToString apiResponse o)
  = combineItem NumberToString apiResponse o.
Proof.
  set (o' := combineItem NumberToString apiResponse o).
  assert (Ht : o' !! "title" = None) by apply combineItem_title.
  assert (Hm : merged NumberToString apiResponse o' = o').
  { unfold merged, prop. rewrite Ht. reflexivity. }
  rewrite combineItem_merged, Hm.
  rewrite (delete_id o' "title") by assumption.
  destruct (truthy (prop "sources" o')) eqn:Es; [|reflexivity].
  apply delete_id. apply combineItem_original. exact Es.
Qed.

(** The loop of [combineResponses]: the references are returned as they
    came, the record behind each of them is replaced by its merged form,
    and nothing else on the heap changes. *)
Lemma combine_go_spec (pageMediaList : list loc) :
  forall h : Heap,
    Forall (fun l => is_Some (h !! l)) pageMediaList ->
    exists h',
      combine_go NumberToString apiResponse pageMediaList h = Ok (pageMediaList, h') /\
      (forall l, l ∈ pageMediaList ->
         h' !! l = combineItem NumberToString apiResponse <$> h !! l) /\
      (forall l, l ∉ pageMediaList -> h' !! l = h !! l).
Proof.
  induction pageMediaList as [|x rest IH]; intros h Hall.
  - exists h. split; [reflexivity|]. split; [intros l Hl; inversion Hl | reflexivity].
  - apply Forall_cons in Hall as [[o Ho] Hrest].
    set (h1 := <[x := combineItem NumberToString apiResponse o]> h).
    destruct (IH h1) as (h' & Hgo & Hin & Hout).
    { eapply Forall_impl; [exact Hrest|]. intros l [v Hv]. unfold h1.
      destruct (decide (x = l)) as [->|Hne].
      - rewrite lookup_insert_eq. eauto.
      - rewrite lookup_insert_ne by assumption. eauto. }
    exists h'. split.
    { simpl. rewrite Ho. cbn [deref bindRes]. fold h1. rewrite Hgo. reflexivity. }
    assert (Hx : h' !! x = Some (combineItem NumberToString apiResponse o)).
    { destruct (decide (x ∈ rest)) as [Hxin|Hxout].
      - rewrite (Hin x Hxin). unfold h1. rewrite lookup_insert_eq. simpl.
        rewrite combineItem_idem. reflexivity.
      - rewrite (Hout x Hxout). unfold h1. apply lookup_insert_eq. }
    split.
    + intros l Hl. destruct (decide (l = x)) as [->|Hne].
      * rewrite Hx, Ho. reflexivity.
      * apply elem_of_cons in Hl as [Hl|Hl]; [contradiction|].
        rewrite (Hin l Hl). unfold h1. rewrite lookup_insert_ne by congruence.
        reflexivity.
    + intros l Hl. apply not_elem_of_cons in Hl as [Hne Hl].
      rewrite (Hout l Hl). unfold h1. rewrite lookup_insert_ne by congruence.
      reflexivity.
Qed.

End Merge.

Section MergeClaims.

Variable NumberToString : Number -> string.
Variable apiResponse : gmap string (gmap string JSValue).


End MergeClaims.


(** ** Statelessness *)

(** Allocation returns distinct fresh references, stores the objects
    behind them and leaves the rest of the heap alone. *)
Lemma allocAll_spec (objs : list (gmap string JSValue)) :
  forall h : Heap,
    NoDup (allocAll objs h).1 /\
    Forall2 (fun l o => (allocAll objs h).2 !! l = Some o) (allocAll objs h).1 objs /\
    (forall l, l ∈ (allocAll objs h).1 -> h !! l = None) /\
    (forall l x, h !! l = Some x -> (allocAll objs h).2 !! l = Some x).
Proof.
  induction objs as [|o objs IH]; intros h; simpl.
  - repeat split; [constructor | constructor | intros l Hl; inversion Hl | auto].
  - set (l := fresh (dom h)).
    assert (Hfresh : h !! l = None).
    { apply not_elem_of_dom. apply is_fresh. }
    destruct (IH (<[l := o]> h)) as (Hnd & HF & Hnew & Hmono).
    repeat split.
    + constructor; [|exact Hnd]. intros Hin. apply Hnew in Hin.
      rewrite lookup_insert_eq in Hin. discriminate.
    + constructor; [|exact HF]. apply Hmono. apply lookup_insert_eq.
    + intros l' Hl'. apply elem_of_cons in Hl' as [-> | Hl']; [exact Hfresh|].
      apply Hnew in Hl'. apply lookup_insert_None in Hl' as [Hl' _]. exact Hl'.
    + intros l' x Hx. apply Hmono. rewrite lookup_insert_ne; [exact Hx|].
      intros <-. congruence.
Qed.

Lemma map_lookup_Forall2 {X Y Z} (f : X -> option Y) (g : Y -> Z)
    (locs : list X) (objs : list Y) :
  Forall2 (fun l o => f l = Some o) locs objs ->
  map (fun l => g <$> f l) locs = map (fun o => Some (g o)) objs.
Proof.
  induction 1 as [|l o locs objs Hl _ IH]; simpl; [reflexivity|].
  rewrite Hl, IH. reflexivity.
Qed.

Section Stateless.

Variable MATHOID_IMG_CLASS : string.
Variable MediaSelectors : SelectorGroup.
Variable Blacklist : SelectorGroup.
Variable SpokenWikipediaId : SelectorGroup.
Variable innerHTML : Element -> string.
Variable NumberToString : Number -> string.
Variable apiResponse : gmap string (gmap string JSValue).

(** The records that the extraction followed by the merge returns are the
    merged forms of the extracted records, whatever the heap was. *)
Lemma extractAndCombine_contents (doc : Document) (h : Heap) :
  contents (extractAndCombine MATHOID_IMG_CLASS MediaSelectors Blacklist
              SpokenWikipediaId innerHTML NumberToString apiResponse doc h)
  = let* items :=
      getMediaItemInfoFromPage MATHOID_IMG_CLASS MediaSelectors Blacklist
        SpokenWikipediaId innerHTML doc in
    Ok (map (fun r => Some (combineItem NumberToString apiResponse (toObject r)))
            items).
Proof.
  unfold extractAndCombine.
  destruct (getMediaItemInfoFromPage _ _ _ _ _ doc) as [items|e]; [|reflexivity].
  cbn [bindRes].
  destruct (allocAll_spec (map toObject items) h) as (_ & HF & _ & _).
  set (a := allocAll (map toObject items) h) in *.
  destruct (combine_go_spec NumberToString apiResponse a.1 a.2)
    as (h' & Hgo & Hin & _).
  { eapply Forall2_Forall_l; [exact HF|]. apply Forall_true. intros o l Hl. eauto. }
  unfold combineResponses. rewrite Hgo. unfold contents, readAll. cbn [fst snd].
  f_equal.
  transitivity (map (fun l => combineItem NumberToString apiResponse <$> a.2 !! l) a.1).
  - apply map_ext_in. intros l Hl. apply Hin. apply list_elem_of_In. exact Hl.
  - rewrite (map_lookup_Forall2 _ _ _ _ HF). rewrite map_map. reflexivity.
Qed.

(** C9, as the code has it.  [combineResponses] works in place: it returns
    the references it was given, the record behind each of them is replaced
    by its merged form, and no other object changes.  The extraction
    followed by the merge is a function of the document and the metadata
    map: the contents of the records it returns do not depend on the heap
    the call starts from, so two runs on equal inputs give equal outputs. *)
Theorem combineResponses_in_place :
  (forall (pageMediaList : list loc) (h : Heap),
      Forall (fun l => is_Some (h !! l)) pageMediaList ->
      exists h',
        combineResponses NumberToString apiResponse pageMediaList h
          = Ok (pageMediaList, h') /\
        (forall l, l ∈ pageMediaList ->
           h' !! l = combineItem NumberToString apiResponse <$> h !! l) /\
        (forall l, l ∉ pageMediaList -> h' !! l = h !! l)) /\
  (forall (doc : Document) (h1 h2 : Heap),
      contents (extractAndCombine MATHOID_IMG_CLASS MediaSelectors Blacklist
                  SpokenWikipediaId innerHTML NumberToString apiResponse doc h1)
      = contents (extractAndCombine MATHOID_IMG_CLASS MediaSelectors Blacklist
                    SpokenWikipediaId innerHTML NumberToString apiResponse doc h2)).
Proof.
  split.
  - intros pageMediaList h Hall. apply combine_go_spec. exact Hall.
  - intros doc h1 h2. rewrite !extractAndCombine_contents. reflexivity.
Qed.

End Stateless.

(** [combineResponses] changes the record it is given: the title is gone
    from the input record and the metadata has been added to it. *)
Lemma combineResponses_mutates_counterexample :
  exists h',
    combineResponses Sample.NumberToString Sample.fooMetadata [0%nat] Sample.fooHeap
      = Ok ([0%nat], h') /\
    (Sample.fooHeap !! 0%nat) ≫= (fun o => o !! "title") = Some (VStr "File:Foo.jpg") /\
    (h' !! 0%nat) ≫= (fun o => o !! "title") = None /\
    (Sample.fooHeap !! 0%nat) ≫= (fun o => o !! "description") = None /\
    (h' !! 0%nat) ≫= (fun o => o !! "description") = Some (VStr "A foo").
Proof. eexists. split; [vm_compute; reflexivity|]. repeat split. Qed.

Lemma combineResponses_in_place_witness :
  exists h',
    combineResponses Sample.NumberToString Sample.fooMetadata [0%nat] Sample.fooHeap
      = Ok ([0%nat], h') /\
    h' !! 0%nat = Some (combineItem Sample.NumberToString Sample.fooMetadata
                          Sample.fooRecord).
Proof.
  destruct (combineResponses_in_place Sample.MATHOID_IMG_CLASS
              Sample.MediaSelectors Sample.Blacklist Sample.SpokenWikipediaId
              Sample.innerHTML Sample.NumberToString Sample.fooMetadata)
    as [H _].
  destruct (H [0%nat] Sample.fooHeap) as (h' & Hgo & Hin & _).
  { constructor; [|constructor]. exists Sample.fooRecord. reflexivity. }
  exists h'. split; [exact Hgo|].
  rewrite (Hin 0%nat); [reflexivity | left].
Defined.

(** ** The scenarios of the specification, run on the model *)

Lemma scenario_image_with_caption :
  (fun l => map (fun r => (title r, type r, option_map text (caption r),
                           showInGallery r)) l) <$>
    (match Sample.getMediaItemInfoFromPage [Sample.figureWithCaption] with
     | Ok out => Some out
     | Throw _ => None
     end)
  = Some [(Some "File:Foo.jpg", "image", Some "Hi", true)].
Proof. vm_compute. reflexivity. Qed.

Lemma scenario_pronunciation :
  (fun l => map (fun r => (title r, audio_type r)) l) <$>
    (match Sample.getMediaItemInfoFromPage [Sample.pronunciationLink] with
     | Ok out => Some out
     | Throw _ => None
     end)
  = Some [(Some "File:Example.ogg", Some "pronunciation")].
Proof. vm_compute. reflexivity. Qed.

Lemma scenario_video_sources :
  (fun l => map (fun r => option_map (map width) (sources r)) l) <$>
    (match Sample.getMediaItemInfoFromPage [Sample.videoWith [] Sample.oggType] with
     | Ok out => Some out
     | Throw _ => None
     end)
  = Some [Some [Some "10"; Some "30"]].
Proof. vm_compute. reflexivity. Qed.

Lemma scenario_merged_video :
  match contents (extractAndCombine Sample.MATHOID_IMG_CLASS Sample.MediaSelectors
                    Sample.Blacklist Sample.SpokenWikipediaId Sample.innerHTML
                    Sample.NumberToString Sample.fooMetadata
                    [Sample.videoWith [] Sample.oggType] ∅) with
  | Ok [Some o] =>
      o !! "title" = None /\ o !! "original" = None /\
      truthy (prop "sources" o) = true
  | _ => False
  end.
Proof. vm_compute. repeat split. Qed.

(** * Further properties of lib/media.js *)

(** ** When the extraction returns *)

Lemma mapRes_returns {A B} (f : A -> Res B) (l : list A) :
  returns (mapRes f l) = true <-> Forall (fun x => returns (f x) = true) l.
Proof.
  induction l as [|x l IH]; simpl.
  - split; [constructor | reflexivity].
  - destruct (f x) as [y|e] eqn:Ex; simpl.
    + destruct (mapRes f l) as [ys|e]; simpl.
      * split; [|reflexivity]. intros _. constructor; [rewrite Ex; reflexivity|].
        apply IH. reflexivity.
      * split; [discriminate|]. inversion 1 as [|? ? _ Hl]. apply IH in Hl.
        discriminate Hl.
    + split; [discriminate|]. inversion 1 as [|? ? Hx _]. rewrite Ex in Hx.
      discriminate Hx.
Qed.

Lemma filterRes_returns {A} (f : A -> Res bool) (l : list A) :
  returns (filterRes f l) = true <-> Forall (fun x => returns (f x) = true) l.
Proof.
  induction l as [|x l IH]; simpl.
  - split; [constructor | reflexivity].
  - destruct (f x) as [y|e] eqn:Ex; simpl.
    + destruct (filterRes f l) as [ys|e]; simpl.
      * split; [|reflexivity]. intros _. constructor; [rewrite Ex; reflexivity|].
        apply IH. reflexivity.
      * split; [discriminate|]. inversion 1 as [|? ? _ Hl]. apply IH in Hl.
        discriminate Hl.
    + split; [discriminate|]. inversion 1 as [|? ? Hx _]. rewrite Ex in Hx.
      discriminate Hx.
Qed.

Lemma uniq_go_returns {A K} `{EqDecision K} (key : A -> Res K) (l : list A) :
  forall seen,
    returns (uniq_go key seen l) = true <-> Forall (fun x => returns (key x) = true) l.
Proof.
  induction l as [|x l IH]; intros seen; simpl.
  - split; [constructor | reflexivity].
  - destruct (key x) as [k|e] eqn:Ex; simpl.
    + destruct (bool_decide (k ∈ seen)).
      * rewrite IH. split; [intros Hl; constructor; [rewrite Ex; reflexivity | exact Hl]|].
        inversion 1; assumption.
      * specialize (IH (seen ++ [k])).
        destruct (uniq_go key (seen ++ [k]) l) as [r|e]; simpl.
        { split; [|reflexivity]. intros _. constructor; [rewrite Ex; reflexivity|].
          apply IH. reflexivity. }
        { split; [discriminate|]. inversion 1 as [|? ? _ Hl]. apply IH in Hl.
          discriminate Hl. }
    + split; [discriminate|]. inversion 1 as [|? ? Hx _]. rewrite Ex in Hx.
      discriminate Hx.
Qed.

(** The iteratee of [_.uniq] returns exactly on records with a non-empty
    title or with an [original]. *)
Lemma keyOf_returns (r : MediaItem) :
  returns (keyOf r) = true <->
  (exists t, title r = Some t /\ t <> EmptyString) \/ original r <> None.
Proof.
  unfold keyOf.
  destruct (title r) as [t|] eqn:Et; destruct (original r) as [o|] eqn:Eo;
    simpl; unfold Str.eqb.
  - destruct (decide (t = EmptyString)) as [->|Hne].
    + rewrite bool_decide_eq_true_2 by reflexivity. simpl.
      split; [intros _; right; discriminate | reflexivity].
    + rewrite bool_decide_eq_false_2 by assumption. simpl.
      split; [intros _; right; discriminate | reflexivity].
  - destruct (decide (t = EmptyString)) as [->|Hne].
    + rewrite bool_decide_eq_true_2 by reflexivity. simpl.
      split; [discriminate|]. intros [(t & Ht & Hne) | Ho]; congruence.
    + rewrite bool_decide_eq_false_2 by assumption. simpl.
      split; [intros _; left; eauto | reflexivity].
  - split; [intros _; right; discriminate | reflexivity].
  - split; [discriminate|]. intros [(t & Ht & _) | Ho]; congruence.
Qed.
